(** * Radio station proxy: a model of [backend/server.py]

    The server is a FastAPI application that forwards requests to one of the
    Radio-Browser mirrors and reshapes the JSON it gets back.  This file
    embeds the request forwarder, the route handlers and the status-check
    log as Rocq functions, and proves properties of them.

    Conventions:
    - a Python [int] is a [Z], a [str] a [string], a [dict] with string keys
      a [gmap string _], a [float] a [spec_float];
    - a coroutine is a function of the world (random source, network, sent
      requests, database) returning a result and the new world;
    - an exception is a value of [exn]; [Raise e] is a raised exception. *)

From stdpp Require Import gmap strings list fin_maps pretty.
From Stdlib Require Import ZArith Floats.SpecFloat.

Set Warnings "-register-all".
Open Scope Z_scope.

(** ** Exceptions and results *)

(** The subclasses of [Exception] the server distinguishes.  [Error cls msg]
    is an exception of any other class [cls] whose [str] is [msg].  What is
    not an [Exception] (a cancellation, an interrupt) is not modelled. *)
Inductive exn :=
| HTTPException (status_code : Z) (detail : string)
| TimeoutError (msg : string)
| Error (cls : string) (msg : string).

(** [str(e)].  An [HTTPException] prints as its status code and detail. *)
Definition str (e : exn) : string :=
  match e with
  | HTTPException status_code detail => pretty status_code +:+ ": " +:+ detail
  | TimeoutError msg => msg
  | Error _ msg => msg
  end.

Inductive result (A : Type) :=
| Ok (a : A)
| Raise (e : exn).
Arguments Ok {A} a.
Arguments Raise {A} e.

#[global] Instance result_ret : MRet result := @Ok.
#[global] Instance result_bind : MBind result := λ A B f r,
  match r with
  | Ok a => f a
  | Raise e => Raise e
  end.
#[global] Instance result_fmap : FMap result := λ A B f r,
  match r with
  | Ok a => Ok (f a)
  | Raise e => Raise e
  end.

(** ** JSON values, as [response.json()] decodes them *)

Inductive json :=
| JNull
| JBool (b : bool)
| JInt (z : Z)
| JFloat (f : spec_float)
| JStr (s : string)
| JList (l : list json)
| JDict (d : gmap string json).

(** [type(v).__name__], used in the messages of [TypeError]. *)
Definition type_name (v : json) : string :=
  match v with
  | JNull => "NoneType"
  | JBool _ => "bool"
  | JInt _ => "int"
  | JFloat _ => "float"
  | JStr _ => "str"
  | JList _ => "list"
  | JDict _ => "dict"
  end.

(** ** The world *)

(** A value of a query parameter sent upstream. *)
Inductive param :=
| PInt (z : Z)
| PStr (s : string).

(** One outbound [session.get(url, params=, headers=, timeout=)]. *)
Record request := {
  url : string;
  params : option (gmap string param);
  headers : gmap string string;
  timeout_total : Z
}.

(** An upstream response: its status, and what [response.json()] gives. *)
Record response := {
  status : Z;
  json_body : result json
}.

(** What [session.get] does: it raises, or it yields a response. *)
Inductive get_outcome :=
| GetRaises (e : exn)
| GetResponds (r : response).

(** A stored document of the [status_checks] collection. *)
Inductive bson :=
| BObjectId (n : N)
| BString (s : string)
| BDate (millis : Z).

Record world := {
  entropy : nat → nat;              (* the raw draws of the random generator *)
  drawn : nat;                      (* how many draws were consumed *)
  upstream : nat → request → get_outcome; (* the n-th GET's outcome *)
  sent : list request;              (* the GETs issued so far, oldest first *)
  uuids : nat → string;             (* uuid.uuid4() at the n-th construction of a record *)
  clock : nat → Z;                  (* datetime.utcnow() there, in microseconds *)
  ticks : nat;                      (* how many records were constructed *)
  object_ids : nat → N;             (* the identifiers the driver generates *)
  status_checks : list (gmap string bson) (* db.status_checks, in cursor order *)
}.

(** The updates of the world. *)
Definition consume_draw (w : world) : world :=
  {| entropy := entropy w; drawn := S (drawn w);
     upstream := upstream w; sent := sent w;
     uuids := uuids w; clock := clock w; ticks := ticks w;
     object_ids := object_ids w;
     status_checks := status_checks w |}.

Definition log_request (req : request) (w : world) : world :=
  {| entropy := entropy w; drawn := drawn w;
     upstream := upstream w; sent := sent w ++ [req];
     uuids := uuids w; clock := clock w; ticks := ticks w;
     object_ids := object_ids w;
     status_checks := status_checks w |}.

Definition tick (w : world) : world :=
  {| entropy := entropy w; drawn := drawn w;
     upstream := upstream w; sent := sent w;
     uuids := uuids w; clock := clock w; ticks := S (ticks w);
     object_ids := object_ids w;
     status_checks := status_checks w |}.

Definition store (doc : gmap string bson) (w : world) : world :=
  {| entropy := entropy w; drawn := drawn w;
     upstream := upstream w; sent := sent w;
     uuids := uuids w; clock := clock w; ticks := ticks w;
     object_ids := object_ids w;
     status_checks := status_checks w ++ [doc] |}.

(** Coroutines: state passing over the world, with exceptions. *)
Definition IO (A : Type) : Type := world → result A * world.

#[global] Instance IO_ret : MRet IO := λ A a w, (Ok a, w).
#[global] Instance IO_bind : MBind IO := λ A B f m w,
  match m w with
  | (Ok a, w') => f a w'
  | (Raise e, w') => (Raise e, w')
  end.

Definition raise {A} (e : exn) : IO A := λ w, (Raise e, w).

(** A synchronous computation run inside a coroutine. *)
Definition lift {A} (r : result A) : IO A := λ w, (r, w).

(** [try: body  except Exception as e: handler(e)].  An exception raised
    by the handler itself is not caught again. *)
Definition try_except {A} (body : IO A) (handler : exn → IO A) : IO A := λ w,
  match body w with
  | (Ok a, w') => (Ok a, w')
  | (Raise e, w') => handler e w'
  end.

(** ** The request forwarder *)

Definition RADIO_BROWSER_SERVERS : list string :=
  [ "de1.api.radio-browser.info";
    "nl1.api.radio-browser.info";
    "at1.api.radio-browser.info" ].

(** [random.choice(seq)]: the element at a drawn index below [len(seq)]. *)
Definition random_choice (seq : list string) : IO string := λ w,
  match seq !! (entropy w (drawn w) `mod` length seq)%nat with
  | Some x => (Ok x, consume_draw w)
  | None =>
      (Raise (Error "IndexError" "Cannot choose from an empty sequence"),
       consume_draw w)
  end.

Definition get_random_server : IO string :=
  host ← random_choice RADIO_BROWSER_SERVERS;
  mret ("https://" +:+ host).

(** [session.get(...)]: the request is logged and the network answers. *)
Definition session_get (req : request) : IO response := λ w,
  match upstream w (length (sent w)) req with
  | GetRaises e => (Raise e, log_request req w)
  | GetResponds r => (Ok r, log_request req w)
  end.

(** The body of the [try] is the first argument of [try_except]; its two
    [except] clauses, [asyncio.TimeoutError] and then [Exception], are the
    cases of the handler, in that order.  The error raised for a status
    other than 200 is raised inside the [try]. *)
Definition make_radio_browser_request
    (endpoint : string) (params : option (gmap string param)) : IO json :=
  server_url ← get_random_server;
  let url := server_url +:+ endpoint in
  let headers : gmap string string := {[ "User-Agent" := "GlobalRadioApp/1.0" ]} in
  try_except
    (response ← session_get {| url := url; params := params;
                               headers := headers; timeout_total := 10 |};
     if status response =? 200 then
       lift (json_body response)
     else
       raise (HTTPException (status response)
                ("Radio API error: " +:+ pretty (status response))))
    (λ e,
       match e with
       | TimeoutError _ => raise (HTTPException 408 "Radio API timeout")
       | _ => raise (HTTPException 500 ("Radio API error: " +:+ str e))
       end).

(** ** Python operations on decoded JSON *)

(** [bool(v)], as in [if not stations]. *)
Definition truthy (v : json) : bool :=
  match v with
  | JNull => false
  | JBool b => b
  | JInt z => negb (z =? 0)
  | JFloat (S754_zero _) => false
  | JFloat _ => true
  | JStr s => negb (String.eqb s EmptyString)
  | JList l => negb (bool_decide (l = []))
  | JDict d => negb (bool_decide (d = ∅))
  end.

(** [if name:] on an optional string: absent and empty are both false. *)
Definition given (o : option string) : bool :=
  match o with
  | Some s => negb (String.eqb s EmptyString)
  | None => false
  end.

(** [for x in v]: the elements of a list, the keys of a dict, the
    characters of a string; other values are not iterable. *)
Definition py_iter (v : json) : result (list json) :=
  match v with
  | JList l => Ok l
  | JDict d => Ok (JStr <$> (map_to_list d).*1)
  | JStr s => Ok ((λ c, JStr (String c EmptyString)) <$> String.list_ascii_of_string s)
  | _ => Raise (Error "TypeError" ("'" +:+ type_name v +:+ "' object is not iterable"))
  end.

(** [v[key]] for a string key. *)
Definition getitem (v : json) (key : string) : result json :=
  match v with
  | JDict d =>
      match d !! key with
      | Some x => Ok x
      | None => Raise (Error "KeyError" ("'" +:+ key +:+ "'"))
      end
  | JList _ => Raise (Error "TypeError" "list indices must be integers or slices, not str")
  | JStr _ => Raise (Error "TypeError" "string indices must be integers, not 'str'")
  | _ => Raise (Error "TypeError" ("'" +:+ type_name v +:+ "' object is not subscriptable"))
  end.

(** [v[0]]. *)
Definition getitem0 (v : json) : result json :=
  match v with
  | JList (x :: _) => Ok x
  | JList [] => Raise (Error "IndexError" "list index out of range")
  | JStr (String c _) => Ok (JStr (String c EmptyString))
  | JStr EmptyString => Raise (Error "IndexError" "string index out of range")
  | JDict _ => Raise (Error "KeyError" "0")
  | _ => Raise (Error "TypeError" ("'" +:+ type_name v +:+ "' object is not subscriptable"))
  end.

(** [v.get(key, default)]: only a dict has the method. *)
Definition get (v : json) (key : string) (dflt : json) : result json :=
  match v with
  | JDict d => Ok (default dflt (d !! key))
  | _ => Raise (Error "AttributeError"
                  ("'" +:+ type_name v +:+ "' object has no attribute 'get'"))
  end.

(** [v > 0]: numbers (and booleans, which are integers) compare, anything
    else is a [TypeError].  A NaN is not greater than anything. *)
Definition gt0 (v : json) : result bool :=
  match v with
  | JInt z => Ok (0 <? z)
  | JBool b => Ok b
  | JFloat f => Ok (SFltb (S754_zero false) f)
  | _ => Raise (Error "TypeError"
                  ("'>' not supported between instances of '"
                   +:+ type_name v +:+ "' and 'int'"))
  end.

(** [cls] called on the unpacked [v]: the unpacked argument must be a
    mapping. *)
Definition kwargs (cls : string) (v : json) : result (gmap string json) :=
  match v with
  | JDict d => Ok d
  | _ => Raise (Error "TypeError"
                  (cls +:+ "() argument after ** must be a mapping, not "
                   +:+ type_name v))
  end.

(** ** Field validation of the response models *)

(** The outcome of validating the fields of a model: the value, or the
    names of all the fields that failed. *)
Inductive validated (A : Type) :=
| Valid (a : A)
| Invalid (errors : list string).
Arguments Valid {A} a.
Arguments Invalid {A} errors.

Definition ap {A B} (vf : validated (A → B)) (va : validated A) : validated B :=
  match vf, va with
  | Valid f, Valid a => Valid (f a)
  | Valid _, Invalid e => Invalid e
  | Invalid e, Valid _ => Invalid e
  | Invalid e1, Invalid e2 => Invalid (e1 ++ e2)
  end.

Notation "vf <*> va" := (ap vf va) (at level 61, left associativity).

(** The [ValidationError] a model raises for the failed fields [errors]. *)
Definition ValidationError (cls : string) (errors : list string) : exn :=
  Error "ValidationError"
    (pretty (length errors) +:+ " validation errors for " +:+ cls +:+ ": "
     +:+ String.concat ", " errors).

Definition construct {A} (cls : string) (v : validated A) : result A :=
  match v with
  | Valid a => Ok a
  | Invalid errors => Raise (ValidationError cls errors)
  end.

(** What the validators accept from a string for a field of another type
    (numeric text for a number, a truth word for a boolean, a timestamp for
    a date) is the validation library's business and is left open. *)
Class Coercions := {
  str_as_int : string → option Z;
  str_as_float : string → option spec_float;
  str_as_bool : string → option bool;
  str_as_datetime : string → option Z
}.

(** [float(z)]: the nearest binary64 number, or nothing when out of range. *)
Definition float_of_int (z : Z) : option spec_float :=
  match binary_normalize 53 1024 z 0 false with
  | S754_infinity _ => None
  | f => Some f
  end.

(** The integer a float denotes, when it has no fractional part. *)
Definition float_as_int (f : spec_float) : option Z :=
  match f with
  | S754_zero _ => Some 0
  | S754_finite s m e =>
      let n :=
        if 0 <=? e then Some (Z.pos m * 2 ^ e)
        else if Z.pos m mod 2 ^ (- e) =? 0 then Some (Z.pos m / 2 ^ (- e))
        else None in
      (λ n, if s then - n else n) <$> n
  | _ => None
  end.

(** The validators follow pydantic 2 in its default mode: a [str] field
    takes a string and nothing else; an [int] field takes an integer, a
    boolean, a float without fractional part, or numeric text; a [float]
    field takes a float, an integer, a boolean, or numeric text; a [bool]
    field takes a boolean, the numbers 0 and 1, or a truth word. *)
Section Validation.
Context `{!Coercions}.

Definition validate_str (v : json) : option string :=
  match v with
  | JStr s => Some s
  | _ => None
  end.

Definition validate_int (v : json) : option Z :=
  match v with
  | JInt z => Some z
  | JBool b => Some (Z.b2z b)
  | JFloat f => float_as_int f
  | JStr s => str_as_int s
  | _ => None
  end.

Definition validate_float (v : json) : option spec_float :=
  match v with
  | JFloat f => Some f
  | JInt z => float_of_int z
  | JBool b => float_of_int (Z.b2z b)
  | JStr s => str_as_float s
  | _ => None
  end.

Definition validate_bool (v : json) : option bool :=
  match v with
  | JBool b => Some b
  | JInt 0 => Some false
  | JInt 1 => Some true
  | JInt _ => None
  | JFloat f =>
      match float_as_int f with
      | Some 0 => Some false
      | Some 1 => Some true
      | _ => None
      end
  | JStr s => str_as_bool s
  | _ => None
  end.

(** A field without a default: it must be present and valid. *)
Definition required {T} (validate : json → option T)
    (field : string) (kw : gmap string json) : validated T :=
  match kw !! field with
  | Some v =>
      match validate v with
      | Some x => Valid x
      | None => Invalid [field]
      end
  | None => Invalid [field]
  end.

(** An [Optional[T] = dflt] field: the default when absent, [None] for a
    null, a valid [T] otherwise. *)
Definition optional {T} (validate : json → option T) (dflt : option T)
    (field : string) (kw : gmap string json) : validated (option T) :=
  match kw !! field with
  | Some JNull => Valid None
  | Some v =>
      match validate v with
      | Some x => Valid (Some x)
      | None => Invalid [field]
      end
  | None => Valid dflt
  end.

End Validation.

(** ** The response models *)

Module RadioStation.
Record t := mk {
  stationuuid : string;
  name : string;
  url : string;
  url_resolved : option string;
  homepage : option string;
  favicon : option string;
  tags : option string;
  country : option string;
  countrycode : option string;
  state : option string;
  language : option string;
  languagecodes : option string;
  votes : option Z;
  lastchangetime : option string;
  codec : option string;
  bitrate : option Z;
  hls : option Z;
  lastcheckok : option Z;
  lastchecktime : option string;
  lastcheckoktime : option string;
  lastlocalchecktime : option string;
  clicktimestamp : option string;
  clickcount : option Z;
  clicktrend : option Z;
  ssl_error : option Z;
  geo_lat : option spec_float;
  geo_long : option spec_float;
  has_extended_info : option bool
}.

(** The constructor called with keyword arguments [kw]: unknown keys are
    dropped, missing optional fields take their defaults. *)
Definition init `{!Coercions} (kw : gmap string json) : result t :=
  construct "RadioStation"
    (Valid mk
     <*> required validate_str "stationuuid" kw
     <*> required validate_str "name" kw
     <*> required validate_str "url" kw
     <*> optional validate_str None "url_resolved" kw
     <*> optional validate_str None "homepage" kw
     <*> optional validate_str None "favicon" kw
     <*> optional validate_str None "tags" kw
     <*> optional validate_str None "country" kw
     <*> optional validate_str None "countrycode" kw
     <*> optional validate_str None "state" kw
     <*> optional validate_str None "language" kw
     <*> optional validate_str None "languagecodes" kw
     <*> optional validate_int (Some 0) "votes" kw
     <*> optional validate_str None "lastchangetime" kw
     <*> optional validate_str None "codec" kw
     <*> optional validate_int (Some 0) "bitrate" kw
     <*> optional validate_int (Some 0) "hls" kw
     <*> optional validate_int (Some 1) "lastcheckok" kw
     <*> optional validate_str None "lastchecktime" kw
     <*> optional validate_str None "lastcheckoktime" kw
     <*> optional validate_str None "lastlocalchecktime" kw
     <*> optional validate_str None "clicktimestamp" kw
     <*> optional validate_int (Some 0) "clickcount" kw
     <*> optional validate_int (Some 0) "clicktrend" kw
     <*> optional validate_int (Some 0) "ssl_error" kw
     <*> optional validate_float None "geo_lat" kw
     <*> optional validate_float None "geo_long" kw
     <*> optional validate_bool (Some false) "has_extended_info" kw).

(** [RadioStation] called on the unpacked JSON value [v]. *)
Definition of_json `{!Coercions} (v : json) : result t :=
  kw ← kwargs "RadioStation" v;
  init kw.
End RadioStation.

Module Country.
Record t := mk {
  name : string;
  iso_3166_1 : string;
  stationcount : Z
}.

Definition init `{!Coercions} (kw : gmap string json) : result t :=
  construct "Country"
    (Valid mk
     <*> required validate_str "name" kw
     <*> required validate_str "iso_3166_1" kw
     <*> required validate_int "stationcount" kw).

Definition of_json `{!Coercions} (v : json) : result t :=
  kw ← kwargs "Country" v;
  init kw.
End Country.

Module Genre.
Record t := mk {
  name : string;
  stationcount : Z
}.

Definition init `{!Coercions} (kw : gmap string json) : result t :=
  construct "Genre"
    (Valid mk
     <*> required validate_str "name" kw
     <*> required validate_int "stationcount" kw).
End Genre.

(** ** The route handlers *)

Section Handlers.
Context `{!Coercions}.

(** [params[key] = value] when the filter is given. *)
Definition add_filter (key : string) (value : option string)
    (params : gmap string param) : gmap string param :=
  match value with
  | Some s => if given value then <[key := PStr s]> params else params
  | None => params
  end.

Definition search_stations (name country tag language : option string)
    (limit offset : Z) : IO (list RadioStation.t) :=
  let params : gmap string param :=
    {[ "limit" := PInt limit;
       "offset" := PInt offset;
       "hidebroken" := PStr "true";
       "order" := PStr "clickcount";
       "reverse" := PStr "true" ]} in
  let params := add_filter "name" name params in
  let params := add_filter "country" country params in
  let params := add_filter "tag" tag params in
  let params := add_filter "language" language params in
  stations ← make_radio_browser_request "/json/stations/search" (Some params);
  lift (items ← py_iter stations; mapM RadioStation.of_json items).

Definition get_popular_stations (limit : Z) : IO (list RadioStation.t) :=
  let params : gmap string param :=
    {[ "limit" := PInt limit;
       "hidebroken" := PStr "true";
       "order" := PStr "clickcount";
       "reverse" := PStr "true" ]} in
  stations ← make_radio_browser_request "/json/stations/search" (Some params);
  lift (items ← py_iter stations; mapM RadioStation.of_json items).

(** The comprehension of [get_countries]: each element is tested, and
    built when the test holds, before the next one is looked at. *)
Fixpoint countries_with_stations (items : list json) : result (list Country.t) :=
  match items with
  | [] => Ok []
  | country :: rest =>
      count ← get country "stationcount" (JInt 0);
      keep ← gt0 count;
      if keep : bool then
        c ← Country.of_json country;
        cs ← countries_with_stations rest;
        Ok (c :: cs)
      else countries_with_stations rest
  end.

Definition get_countries : IO (list Country.t) :=
  countries ← make_radio_browser_request "/json/countries" None;
  lift (items ← py_iter countries; countries_with_stations items).

Definition genre_of_json (genre : json) : result Genre.t :=
  name ← getitem genre "name";
  stationcount ← getitem genre "stationcount";
  Genre.init {[ "name" := name; "stationcount" := stationcount ]}.

Definition get_genres (limit : Z) : IO (list Genre.t) :=
  let params : gmap string param :=
    {[ "limit" := PInt limit;
       "order" := PStr "stationcount";
       "reverse" := PStr "true" ]} in
  genres ← make_radio_browser_request "/json/tags" (Some params);
  lift (items ← py_iter genres; mapM genre_of_json items).

Definition root : IO (gmap string string) :=
  mret ({[ "message" := "Global Radio API" ]} : gmap string string).

(** The body is a dictionary of strings. *)
Definition click_station (station_uuid : string) : IO (gmap string string) :=
  try_except
    (_ ← make_radio_browser_request ("/json/url/" +:+ station_uuid) None;
     mret ({[ "message" := "Click registered successfully" ]} : gmap string string))
    (λ e,
       mret ({[ "message" := "Click registration failed";
                "error" := str e ]} : gmap string string)).

Definition get_station_details (station_uuid : string) : IO RadioStation.t :=
  stations ← make_radio_browser_request
               ("/json/stations/byuuid/" +:+ station_uuid) None;
  if negb (truthy stations) then
    raise (HTTPException 404 "Station not found")
  else
    lift (first ← getitem0 stations; RadioStation.of_json first).

End Handlers.

(** ** Routing: parameter validation and status codes *)

(** An integer query parameter declared as [Query(default, ge=, le=)]. *)
Module Query.
Record t := mk {
  default : Z;
  ge : option Z;
  le : option Z
}.

Definition above (bound : option Z) (z : Z) : bool :=
  match bound with
  | Some b => b <=? z
  | None => true
  end.

Definition below (bound : option Z) (z : Z) : bool :=
  match bound with
  | Some b => z <=? b
  | None => true
  end.

(** The value the handler receives for the parameter [field], given the
    integer [raw] of the query string if there is one. *)
Definition validate (q : t) (field : string) (raw : option Z) : validated Z :=
  match raw with
  | None => Valid (default q)
  | Some z => if above (ge q) z && below (le q) z then Valid z else Invalid [field]
  end.
End Query.

(** [limit: int = Query(50, ge=1, le=100)] *)
Definition limit_query : Query.t :=
  {| Query.default := 50; Query.ge := Some 1; Query.le := Some 100 |}.

(** [offset: int = Query(0, ge=0)] *)
Definition offset_query : Query.t :=
  {| Query.default := 0; Query.ge := Some 0; Query.le := None |}.

(** What the framework does with a request: it rejects the parameters
    without calling the handler, or it runs the handler. *)
Inductive reply (A : Type) :=
| Rejected (errors : list string)
| Handled (r : result A).
Arguments Rejected {A} errors.
Arguments Handled {A} r.

Definition route {X A} (args : validated X) (handler : X → IO A)
    : world → reply A * world := λ w,
  match args with
  | Valid x => let '(r, w') := handler x w in (Handled r, w')
  | Invalid errors => (Rejected errors, w)
  end.

(** The status code of the HTTP response. *)
Definition status_code_of {A} (r : reply A) : Z :=
  match r with
  | Rejected _ => 422
  | Handled (Ok _) => 200
  | Handled (Raise (HTTPException status_code _)) => status_code
  | Handled (Raise _) => 500
  end.

Section Routes.
Context `{!Coercions}.

(** [GET /api/radio/search] *)
Definition GET_radio_search (name country tag language : option string)
    (limit offset : option Z) : world → reply (list RadioStation.t) * world :=
  route (Valid pair
         <*> Query.validate limit_query "limit" limit
         <*> Query.validate offset_query "offset" offset)
        (λ '(limit, offset), search_stations name country tag language limit offset).

(** [GET /api/radio/popular] *)
Definition GET_radio_popular (limit : option Z)
    : world → reply (list RadioStation.t) * world :=
  route (Query.validate limit_query "limit" limit) get_popular_stations.

(** [GET /api/radio/countries] *)
Definition GET_radio_countries : world → reply (list Country.t) * world :=
  route (Valid ()) (λ _, get_countries).

(** [GET /api/radio/genres] *)
Definition GET_radio_genres (limit : option Z)
    : world → reply (list Genre.t) * world :=
  route (Query.validate limit_query "limit" limit) get_genres.

(** [POST /api/radio/click/{station_uuid}] *)
Definition POST_radio_click (station_uuid : string)
    : world → reply (gmap string string) * world :=
  route (Valid station_uuid) click_station.

(** [GET /api/radio/station/{station_uuid}] *)
Definition GET_radio_station (station_uuid : string)
    : world → reply RadioStation.t * world :=
  route (Valid station_uuid) get_station_details.

End Routes.

(** ** The status-check log *)

Module StatusCheck.
Record t := mk {
  id : string;
  client_name : string;
  timestamp : Z
}.

Definition validate_str (v : bson) : option string :=
  match v with
  | BString s => Some s
  | _ => None
  end.

(** A stored date is read back in microseconds. *)
Definition validate_datetime `{!Coercions} (v : bson) : option Z :=
  match v with
  | BDate millis => Some (millis * 1000)
  | BString s => str_as_datetime s
  | _ => None
  end.

(** A field with a default factory: the made value when absent. *)
Definition defaulted {T} (validate : bson → option T) (made : T)
    (field : string) (kw : gmap string bson) : validated T :=
  match kw !! field with
  | Some v =>
      match validate v with
      | Some x => Valid x
      | None => Invalid [field]
      end
  | None => Valid made
  end.

Definition needed {T} (validate : bson → option T)
    (field : string) (kw : gmap string bson) : validated T :=
  match kw !! field with
  | Some v =>
      match validate v with
      | Some x => Valid x
      | None => Invalid [field]
      end
  | None => Invalid [field]
  end.

(** The constructor, where [uuid4] and [utcnow] are what the two default
    factories return when they are called. *)
Definition init `{!Coercions} (uuid4 : string) (utcnow : Z)
    (kw : gmap string bson) : result t :=
  construct "StatusCheck"
    (Valid mk
     <*> defaulted validate_str uuid4 "id" kw
     <*> needed validate_str "client_name" kw
     <*> defaulted validate_datetime utcnow "timestamp" kw).

(** [status_obj.dict()], as the driver encodes it: a date is stored in
    whole milliseconds. *)
Definition dict (s : t) : gmap string bson :=
  {[ "id" := BString (id s);
     "client_name" := BString (client_name s);
     "timestamp" := BDate (timestamp s / 1000) ]}.
End StatusCheck.

Module StatusCheckCreate.
Record t := mk {
  client_name : string
}.

(** [input.dict()] *)
Definition dict (input : t) : gmap string bson :=
  {[ "client_name" := BString (client_name input) ]}.
End StatusCheckCreate.

Section Status.
Context `{!Coercions}.

(** Constructing a [StatusCheck] reads the identifier source and the clock. *)
Definition new_StatusCheck (kw : gmap string bson) : IO StatusCheck.t := λ w,
  (StatusCheck.init (uuids w (ticks w)) (clock w (ticks w)) kw, tick w).

(** [db.status_checks.insert_one(doc)]: the document gets an [_id] and goes
    to the end of the collection. *)
Definition insert_one (doc : gmap string bson) : IO unit := λ w,
  (Ok (),
   store (<["_id" := BObjectId (object_ids w (length (status_checks w)))]> doc) w).

(** [db.status_checks.find().to_list(length)] *)
Definition find_to_list (length : nat) : IO (list (gmap string bson)) := λ w,
  (Ok (take length (status_checks w)), w).

Definition create_status_check (input : StatusCheckCreate.t) : IO StatusCheck.t :=
  let status_dict := StatusCheckCreate.dict input in
  status_obj ← new_StatusCheck status_dict;
  _ ← insert_one (StatusCheck.dict status_obj);
  mret status_obj.

Definition get_status_checks : IO (list StatusCheck.t) :=
  status_checks ← find_to_list 1000;
  mapM new_StatusCheck status_checks.

End Status.

(** ** The API tester of [backend_test.py] *)

(** One call of [requests.get] or [requests.post]. *)
Record call := {
  call_method : string;
  call_url : string;
  call_headers : gmap string string;
  call_params : option (gmap string param);
  call_json : option json;
  call_timeout : Z
}.

(** The response of the tested server: its status code, and what
    [response.json()] gives. *)
Record api_response := {
  status_code : Z;
  body_json : result json
}.

(** The tested server, seen from the tester: the outcome of the n-th call,
    an exception of [requests] or a response, and the calls made so far. *)
Record client := {
  server : nat → call → exn + api_response;
  calls : list call
}.

Module RadioAPITester.
Record t := mk {
  base_url : string;
  tests_run : Z;
  tests_passed : Z
}.

(** [RadioAPITester(base_url)] *)
Definition init (base_url : string) : t :=
  {| base_url := base_url; tests_run := 0; tests_passed := 0 |}.
End RadioAPITester.

(** The methods of the tester: state passing over the tester object and
    the tested server, with exceptions.  What the tester prints is left
    out. *)
Definition Test (A : Type) : Type :=
  RadioAPITester.t * client → result A * (RadioAPITester.t * client).

#[global] Instance Test_ret : MRet Test := λ A a st, (Ok a, st).
#[global] Instance Test_bind : MBind Test := λ A B f m st,
  match m st with
  | (Ok a, st') => f a st'
  | (Raise e, st') => (Raise e, st')
  end.

Definition test_raise {A} (e : exn) : Test A := λ st, (Raise e, st).

Definition test_lift {A} (r : result A) : Test A := λ st, (r, st).

(** [try: body  except Exception as e: handler(e)] in a method. *)
Definition test_try_except {A} (body : Test A) (handler : exn → Test A)
    : Test A := λ st,
  match body st with
  | (Ok a, st') => (Ok a, st')
  | (Raise e, st') => handler e st'
  end.

(** [self.base_url] *)
Definition self_base_url : Test string := λ st,
  (Ok (RadioAPITester.base_url st.1), st).

(** [self.tests_run += 1] *)
Definition count_run : Test unit := λ st,
  (Ok (),
   ({| RadioAPITester.base_url := RadioAPITester.base_url st.1;
       RadioAPITester.tests_run := RadioAPITester.tests_run st.1 + 1;
       RadioAPITester.tests_passed := RadioAPITester.tests_passed st.1 |},
    st.2)).

(** [self.tests_passed += 1] *)
Definition count_passed : Test unit := λ st,
  (Ok (),
   ({| RadioAPITester.base_url := RadioAPITester.base_url st.1;
       RadioAPITester.tests_run := RadioAPITester.tests_run st.1;
       RadioAPITester.tests_passed := RadioAPITester.tests_passed st.1 + 1 |},
    st.2)).

(** A call of [requests]: it is logged, and the server answers or the
    call raises. *)
Definition requests_call (c : call) : Test api_response := λ st,
  let st' := (st.1, {| server := server st.2; calls := calls st.2 ++ [c] |}) in
  match server st.2 (length (calls st.2)) c with
  | inl e => (Raise e, st')
  | inr response => (Ok response, st')
  end.

(** [requests.get(url, headers=headers, params=params, timeout=30)] *)
Definition requests_get (url : string) (headers : gmap string string)
    (params : option (gmap string param)) : Test api_response :=
  requests_call {| call_method := "GET"; call_url := url;
                   call_headers := headers; call_params := params;
                   call_json := None; call_timeout := 30 |}.

(** [requests.post(url, json=data, headers=headers, timeout=30)] *)
Definition requests_post (url : string) (data : option json)
    (headers : gmap string string) : Test api_response :=
  requests_call {| call_method := "POST"; call_url := url;
                   call_headers := headers; call_params := None;
                   call_json := data; call_timeout := 30 |}.

(** With a method other than GET and POST no response is bound, and
    reading its status raises inside the [try].  The inner [try] of the
    success branch only prints and is left out with the printing. *)
Definition run_test (name method endpoint : string) (expected_status : Z)
    (params : option (gmap string param)) (data : option json)
    : Test (bool * json) :=
  base_url ← self_base_url;
  let url := base_url +:+ "/" +:+ endpoint in
  let headers : gmap string string :=
    {[ "Content-Type" := "application/json" ]} in
  _ ← count_run;
  test_try_except
    (response ←
       (if String.eqb method "GET" then
          requests_get url headers params
        else if String.eqb method "POST" then
          requests_post url data headers
        else
          test_raise
            (Error "UnboundLocalError"
               "cannot access local variable 'response' where it is not associated with a value"));
     let success := status_code response =? expected_status in
     _ ← (if success then count_passed else mret ());
     body ← (if status_code response =? 200
             then test_lift (body_json response)
             else mret (JDict ∅));
     mret (success, body))
    (λ e, mret (false, JDict ∅)).

Definition test_popular_stations : Test (bool * json) :=
  run_test "Get Popular Stations" "GET" "api/radio/popular" 200
    (Some {[ "limit" := PInt 10 ]}) None.

Definition test_search_stations : Test (bool * json) :=
  '(success1, response1) ←
    run_test "Search Stations (Basic)" "GET" "api/radio/search" 200
      (Some {[ "limit" := PInt 5 ]}) None;
  '(success2, response2) ←
    run_test "Search Stations (By Name)" "GET" "api/radio/search" 200
      (Some {[ "name" := PStr "BBC"; "limit" := PInt 5 ]}) None;
  '(success3, response3) ←
    run_test "Search Stations (By Country)" "GET" "api/radio/search" 200
      (Some {[ "country" := PStr "United States"; "limit" := PInt 5 ]}) None;
  mret (success1 && success2 && success3, response1).

Definition test_countries_endpoint : Test (bool * json) :=
  run_test "Get Countries" "GET" "api/radio/countries" 200 None None.

Definition test_genres_endpoint : Test (bool * json) :=
  run_test "Get Genres" "GET" "api/radio/genres" 200
    (Some {[ "limit" := PInt 20 ]}) None.

Definition test_station_click (station_uuid : string) : Test (bool * json) :=
  run_test "Station Click Tracking" "POST"
    ("api/radio/click/" +:+ station_uuid) 200 None None.

Definition test_station_details (station_uuid : string) : Test (bool * json) :=
  run_test "Get Station Details" "GET"
    ("api/radio/station/" +:+ station_uuid) 200 None None.

Definition test_root_endpoint : Test (bool * json) :=
  run_test "Root API Endpoint" "GET" "api/" 200 None None.

(** [self.tests_passed == self.tests_run] *)
Definition self_all_passed : Test bool := λ st,
  (Ok (RadioAPITester.tests_passed st.1 =? RadioAPITester.tests_run st.1), st).

(** [len(v) > 0] *)
Definition len_gt0 (v : json) : result bool :=
  match v with
  | JList l => Ok (negb (bool_decide (l = [])))
  | JDict d => Ok (negb (bool_decide (d = ∅)))
  | JStr s => Ok (negb (String.eqb s EmptyString))
  | _ => Raise (Error "TypeError"
                  ("object of type '" +:+ type_name v +:+ "' has no len()"))
  end.

(** How a value that is not a string prints inside an f-string is left
    open for floats, lists and objects. *)
Class Repr := {
  repr : json → string
}.

(** [f"{v}"] *)
Definition format_value `{!Repr} (v : json) : string :=
  match v with
  | JStr s => s
  | JInt z => pretty z
  | JBool true => "True"
  | JBool false => "False"
  | JNull => "None"
  | _ => repr v
  end.

(** [main()]: the exit code, for the tester's default address. *)
Definition main `{!Repr} : Test Z :=
  _ ← test_root_endpoint;
  '(success, popular_stations) ← test_popular_stations;
  _ ← test_countries_endpoint;
  _ ← test_genres_endpoint;
  _ ← test_search_stations;
  proceed ←
    (if success && truthy popular_stations
     then test_lift (len_gt0 popular_stations)
     else mret false);
  _ ← (if proceed : bool then
         first ← test_lift (getitem0 popular_stations);
         station_uuid ← test_lift (get first "stationuuid" JNull);
         if truthy station_uuid then
           _ ← test_station_click (format_value station_uuid);
           _ ← test_station_details (format_value station_uuid);
           mret ()
         else mret ()
       else mret ());
  all_passed ← self_all_passed;
  mret (if all_passed : bool then 0 else 1).

(** The tester [main] starts from. *)
Definition default_tester : RadioAPITester.t :=
  RadioAPITester.init
    "https://10f78334-d4d6-4418-bb73-da1a3ad115ea.preview.emergentagent.com".

(** * Properties *)

(** ** Vocabulary of the statements *)

(** The GET the forwarder issues to the mirror [host]. *)
Definition outbound (host endpoint : string)
    (params : option (gmap string param)) : request :=
  {| url := ("https://" +:+ host) +:+ endpoint;
     params := params;
     headers := {[ "User-Agent" := "GlobalRadioApp/1.0" ]};
     timeout_total := 10 |}.

(** The handler of the forwarder's [except] clauses. *)
Definition mapped_error (e : exn) : exn :=
  match e with
  | TimeoutError _ => HTTPException 408 "Radio API timeout"
  | _ => HTTPException 500 ("Radio API error: " +:+ str e)
  end.

(** The forwarder's result, read off what the network did. *)
Definition forwarded (o : get_outcome) : result json :=
  match o with
  | GetRaises e => Raise (mapped_error e)
  | GetResponds r =>
      if status r =? 200 then
        match json_body r with
        | Ok v => Ok v
        | Raise e => Raise (mapped_error e)
        end
      else
        Raise (mapped_error
                 (HTTPException (status r)
                    ("Radio API error: " +:+ pretty (status r))))
  end.

(** The GET timed out: while connecting, or while the body of a 200
    response was read. *)
Definition timed_out (o : get_outcome) : bool :=
  match o with
  | GetRaises (TimeoutError _) => true
  | GetRaises _ => false
  | GetResponds r =>
      (status r =? 200) &&
      match json_body r with
      | Raise (TimeoutError _) => true
      | _ => false
      end
  end.

(** A request is forwarded: the handler ran, and exactly one GET went out,
    to [endpoint] on one of the mirrors, with the parameters [p]. *)
Definition forwards_to {A} (endpoint : string) (p : gmap string param)
    (w : world) (out : reply A * world) : Prop :=
  ∃ r host,
    out.1 = Handled r ∧ host ∈ RADIO_BROWSER_SERVERS ∧
    sent out.2 = sent w ++ [outbound host endpoint (Some p)].

(** The document the collection holds for a record: the encoded record
    with the identifier the driver gave it. *)
Definition stored (entry : N * StatusCheck.t) : gmap string bson :=
  <["_id" := BObjectId entry.1]> (StatusCheck.dict entry.2).

(** A record as it is read back: its date has lost the microseconds. *)
Definition read_back (s : StatusCheck.t) : StatusCheck.t :=
  {| StatusCheck.id := StatusCheck.id s;
     StatusCheck.client_name := StatusCheck.client_name s;
     StatusCheck.timestamp := StatusCheck.timestamp s / 1000 * 1000 |}.


(** ** Sample inputs *)

(** Validators that take no string for a field of another type.  The
    examples below hold for any other choice as well: no field of theirs
    holds a string where a number, a boolean or a date is declared. *)
Definition literal_only : Coercions :=
  {| str_as_int := λ _, None;
     str_as_float := λ _, None;
     str_as_bool := λ _, None;
     str_as_datetime := λ _, None |}.

(** A fresh world in which every GET has the outcome [o]. *)
Definition answering (o : get_outcome) : world :=
  {| entropy := λ _, 0%nat;
     drawn := 0;
     upstream := λ _ _, o;
     sent := [];
     uuids := λ n, "check-" +:+ pretty n;
     clock := λ n, 1700000000123456 + Z.of_nat n;
     ticks := 0;
     object_ids := N.of_nat;
     status_checks := [] |}.

(** A 200 response with the body [v]. *)
Definition ok_response (v : json) : get_outcome :=
  GetResponds {| status := 200; json_body := Ok v |}.

Definition station_json (stationuuid name : string) : json :=
  JDict {[ "stationuuid" := JStr stationuuid;
           "name" := JStr name;
           "url" := JStr "http://stream.example/live" ]}.

Definition station (stationuuid name : string) : RadioStation.t :=
  {| RadioStation.stationuuid := stationuuid;
     RadioStation.name := name;
     RadioStation.url := "http://stream.example/live";
     RadioStation.url_resolved := None;
     RadioStation.homepage := None;
     RadioStation.favicon := None;
     RadioStation.tags := None;
     RadioStation.country := None;
     RadioStation.countrycode := None;
     RadioStation.state := None;
     RadioStation.language := None;
     RadioStation.languagecodes := None;
     RadioStation.votes := Some 0;
     RadioStation.lastchangetime := None;
     RadioStation.codec := None;
     RadioStation.bitrate := Some 0;
     RadioStation.hls := Some 0;
     RadioStation.lastcheckok := Some 1;
     RadioStation.lastchecktime := None;
     RadioStation.lastcheckoktime := None;
     RadioStation.lastlocalchecktime := None;
     RadioStation.clicktimestamp := None;
     RadioStation.clickcount := Some 0;
     RadioStation.clicktrend := Some 0;
     RadioStation.ssl_error := Some 0;
     RadioStation.geo_lat := None;
     RadioStation.geo_long := None;
     RadioStation.has_extended_info := Some false |}.

Definition country_json (name code : string) (stationcount : Z) : json :=
  JDict {[ "name" := JStr name;
           "iso_3166_1" := JStr code;
           "stationcount" := JInt stationcount ]}.

(** Two stations come back, whatever was asked. *)
Definition two_stations : world :=
  answering (ok_response (JList [station_json "u1" "One"; station_json "u2" "Two"])).

(** Three countries: with stations, with none, and without a count. *)
Definition three_countries : world :=
  answering (ok_response
    (JList [ country_json "Austria" "AT" 3;
             country_json "Nowhere" "XX" 0;
             JDict {[ "name" := JStr "Uncounted"; "iso_3166_1" := JStr "ZZ" ]} ])).

(** ** Vocabulary of the further properties *)

(** The GET raised [e], while connecting or while the body of a 200
    response was read. *)
Definition failed_with (o : get_outcome) (e : exn) : Prop :=
  o = GetRaises e
  ∨ ∃ r, o = GetResponds r ∧ status r = 200 ∧ json_body r = Raise e.

(** A radio route leaves the database alone and issues at most one GET. *)
Definition forwards_at_most_once (w w' : world) : Prop :=
  status_checks w' = status_checks w
  ∧ ∃ reqs, sent w' = sent w ++ reqs ∧ (length reqs ≤ 1)%nat.

(** The parameters [p] carry the filter [value] under [key] when it is a
    non-empty string, and have no such key otherwise. *)
Definition carries (p : gmap string param) (key : string)
    (value : option string) : Prop :=
  (∀ s, value = Some s → s ≠ EmptyString → p !! key = Some (PStr s))
  ∧ (value = None ∨ value = Some EmptyString → p !! key = None).

(** The status codes a reply can have. *)
Definition status_among {A} (codes : list Z) (r : reply A) : Prop :=
  status_code_of r ∈ codes.

(** The names of the fields of a station record. *)
Definition station_fields : list string :=
  [ "stationuuid"; "name"; "url"; "url_resolved"; "homepage"; "favicon";
    "tags"; "country"; "countrycode"; "state"; "language"; "languagecodes";
    "votes"; "lastchangetime"; "codec"; "bitrate"; "hls"; "lastcheckok";
    "lastchecktime"; "lastcheckoktime"; "lastlocalchecktime";
    "clicktimestamp"; "clickcount"; "clicktrend"; "ssl_error"; "geo_lat";
    "geo_long"; "has_extended_info" ].

(** The JSON object of a country record. *)
Definition Country_json (c : Country.t) : json :=
  JDict {[ "name" := JStr (Country.name c);
           "iso_3166_1" := JStr (Country.iso_3166_1 c);
           "stationcount" := JInt (Country.stationcount c) ]}.

(** An exception of the builtin or validation kind: anything but the two
    the forwarder's clauses tell apart. *)
Definition is_error (e : exn) : Prop := ∃ cls msg, e = Error cls msg.

(** A synchronous computation that raises nothing but such exceptions. *)
Definition raises_errors_only {A B} (f : A → result B) : Prop :=
  ∀ x e, f x = Raise e → is_error e.

(** The call [run_test] makes for a method, if it makes one. *)
Definition call_of (method url : string) (params : option (gmap string param))
    (data : option json) : option call :=
  let headers : gmap string string :=
    {[ "Content-Type" := "application/json" ]} in
  if String.eqb method "GET" then
    Some {| call_method := "GET"; call_url := url; call_headers := headers;
            call_params := params; call_json := None; call_timeout := 30 |}
  else if String.eqb method "POST" then
    Some {| call_method := "POST"; call_url := url; call_headers := headers;
            call_params := None; call_json := data; call_timeout := 30 |}
  else None.

(** The tester with one more test run, and with [passed] more passed. *)
Definition counted (t : RadioAPITester.t) (passed : bool) : RadioAPITester.t :=
  {| RadioAPITester.base_url := RadioAPITester.base_url t;
     RadioAPITester.tests_run := RadioAPITester.tests_run t + 1;
     RadioAPITester.tests_passed :=
       RadioAPITester.tests_passed t + (if passed then 1 else 0) |}.

(** The tested server after the call [c]. *)
Definition called (c : call) (s : client) : client :=
  {| server := server s; calls := calls s ++ [c] |}.

(** The n-th call was answered with status 200. *)
Definition answered_200 (s : client) (n : nat) : bool :=
  match calls s !! n with
  | Some c =>
      match server s n c with
      | inr response => status_code response =? 200
      | inl _ => false
      end
  | None => false
  end.

(** How many of the first [n] calls were answered with status 200. *)
Fixpoint hits (s : client) (n : nat) : Z :=
  match n with
  | O => 0
  | S n' => hits s n' + (if answered_200 s n' then 1 else 0)
  end.

(** The counters of the tester agree with the log of calls: every test
    made one call, and the passed ones are those answered with 200. *)
Definition ledger (n : nat) (st : RadioAPITester.t * client) : Prop :=
  length (calls st.2) = n
  ∧ RadioAPITester.tests_run st.1 = Z.of_nat n
  ∧ RadioAPITester.tests_passed st.1 = hits st.2 n.

(** ** Further sample inputs *)

(** Every GET is refused. *)
Definition refusing : world :=
  answering (GetRaises (Error "ClientConnectorError" "Connection refused")).

(** Every GET is answered with status 404. *)
Definition answering_404 : world :=
  answering (GetResponds {| status := 404; json_body := Ok (JList []) |}).

(** A fresh world whose collection holds [docs]. *)
Definition with_documents (docs : list (gmap string bson)) : world :=
  {| entropy := λ _, 0%nat;
     drawn := 0;
     upstream := λ _ _, GetRaises (TimeoutError EmptyString);
     sent := [];
     uuids := λ n, "check-" +:+ pretty n;
     clock := λ n, 1700000000123456 + Z.of_nat n;
     ticks := 0;
     object_ids := N.of_nat;
     status_checks := docs |}.

(** A fresh world whose first two identifiers are written out. *)
Definition two_identifiers : world :=
  {| entropy := λ _, 0%nat;
     drawn := 0;
     upstream := λ _ _, GetRaises (TimeoutError EmptyString);
     sent := [];
     uuids := λ n, match n with O => "check-a" | _ => "check-b" end;
     clock := λ n, 1700000000123456;
     ticks := 0;
     object_ids := N.of_nat;
     status_checks := [] |}.

Definition probe_record : StatusCheck.t :=
  {| StatusCheck.id := "check-0";
     StatusCheck.client_name := "probe";
     StatusCheck.timestamp := 1700000000123456 |}.

(** A tested server that answers every call with [response]. *)
Definition always (response : api_response) : client :=
  {| server := λ _ _, inr response; calls := [] |}.

(** A way of printing that only names the type.  The examples print
    strings only. *)
Definition plain_repr : Repr := {| repr := type_name |}.

(** * Proofs *)

(** ** Running coroutines *)

Lemma IO_bind_run {A B} (m : IO A) (f : A → IO B) w :
  (m ≫= f) w =
    match m w with
    | (Ok a, w') => f a w'
    | (Raise e, w') => (Raise e, w')
    end.
Proof. reflexivity. Qed.

(** ** What one call of the forwarder does *)


Lemma random_choice_server w :
  ∃ host, host ∈ RADIO_BROWSER_SERVERS ∧
    random_choice RADIO_BROWSER_SERVERS w = (Ok host, consume_draw w).
Proof.
  unfold random_choice.
  pose proof (Nat.mod_upper_bound (entropy w (drawn w))
                (length RADIO_BROWSER_SERVERS)) as Hlt.
  destruct (lookup_lt_is_Some_2 RADIO_BROWSER_SERVERS
              (entropy w (drawn w) `mod` length RADIO_BROWSER_SERVERS)%nat)
    as [host Hhost].
  { apply Hlt. done. }
  exists host. split.
  - by eapply list_elem_of_lookup_2.
  - by rewrite Hhost.
Qed.

Lemma make_radio_browser_request_run endpoint params w :
  ∃ host, host ∈ RADIO_BROWSER_SERVERS ∧
    make_radio_browser_request endpoint params w =
      (forwarded (upstream w (length (sent w)) (outbound host endpoint params)),
       log_request (outbound host endpoint params) (consume_draw w)).
Proof.
  destruct (random_choice_server w) as (host & Hin & Hhost).
  exists host. split; [done|].
  unfold make_radio_browser_request, get_random_server.
  unfold mbind at 1. unfold IO_bind at 1.
  unfold mbind at 1. unfold IO_bind at 1.
  rewrite Hhost. unfold mret, IO_ret.
  unfold try_except, mbind, IO_bind, session_get. cbn [sent upstream consume_draw].
  fold (outbound host endpoint params).
  destruct (upstream w (length (sent w)) (outbound host endpoint params))
    as [e|r].
  - destruct e; reflexivity.
  - cbn [forwarded]. destruct (status r =? 200).
    + unfold lift. destruct (json_body r) as [v|[]]; reflexivity.
    + reflexivity.
Qed.

(** Replaces the call of the forwarder in the goal by its result and world,
    naming the mirror that was drawn. *)
Ltac forwarder_runs host Hin :=
  match goal with
  | |- context [make_radio_browser_request ?e ?p ?w] =>
      let Hrun := fresh "Hrun" in
      destruct (make_radio_browser_request_run e p w) as (host & Hin & Hrun);
      rewrite Hrun; clear Hrun
  end.


Lemma forwarded_timed_out o :
  timed_out o = true → forwarded o = Raise (HTTPException 408 "Radio API timeout").
Proof.
  destruct o as [[]|r]; simpl; try done.
  destruct (status r =? 200); simpl; [|done].
  by destruct (json_body r) as [v|[]].
Qed.

(** Whatever the upstream answers with a status other than 200, the caller
    of the forwarder sees a 500: the exception that carries the upstream
    status is raised inside the [try] and caught by its last clause. *)
Lemma non_200_is_reported_as_500 endpoint params w :
  ∃ host, host ∈ RADIO_BROWSER_SERVERS ∧
    ∀ r, upstream w (length (sent w)) (outbound host endpoint params)
           = GetResponds r →
         status r ≠ 200 →
         (make_radio_browser_request endpoint params w).1 =
           Raise (HTTPException 500
                    ("Radio API error: " +:+ pretty (status r)
                     +:+ ": Radio API error: " +:+ pretty (status r))).
Proof.
  destruct (make_radio_browser_request_run endpoint params w)
    as (host & Hin & Hrun).
  exists host. split; [done|]. intros r Hr Hstatus.
  rewrite Hrun, Hr. simpl.
  by destruct (Z.eqb_spec (status r) 200).
Qed.

(** C1 (the code does otherwise): the upstream answers 404 to the lookup of
    a station.  The caller of the forwarder gets an error with status 500,
    whose detail wraps the text of the 404 error, not an error with status
    404. *)
Theorem upstream_404_is_reported_as_500 :
  let w := answering (GetResponds {| status := 404; json_body := Ok (JList []) |}) in
  let r := (make_radio_browser_request "/json/stations/byuuid/u1" None w).1 in
  r = Raise (HTTPException 500 "Radio API error: 404: Radio API error: 404")
  ∧ status_code_of (Handled r) = 500
  ∧ status_code_of (Handled r) ≠ 404.
Proof. vm_compute. by repeat split. Qed.

(** A coroutine followed by a synchronous computation on its value. *)
Lemma bind_lift {A B} (m : IO A) (f : A → result B) w :
  (x ← m; lift (f x)) w = ((m w).1 ≫= f, (m w).2).
Proof.
  unfold mbind at 1. unfold IO_bind.
  by destruct (m w) as [[a|e] w'].
Qed.

Lemma add_filter_lookup_ne key value (p : gmap string param) k :
  key ≠ k → add_filter key value p !! k = p !! k.
Proof.
  intros Hne. unfold add_filter.
  destruct value as [s|]; [|done].
  destruct (given (Some s)); [|done].
  by rewrite lookup_insert_ne.
Qed.

Lemma limit_query_valid field (raw : option Z) :
  1 ≤ default 50 raw ≤ 100 →
  Query.validate limit_query field raw = Valid (default 50 raw).
Proof.
  intros Hl. destruct raw as [z|]; simpl in *; [|done].
  unfold Query.validate. simpl.
  destruct (Z.leb_spec 1 z); [|lia].
  destruct (Z.leb_spec z 100); [|lia]. done.
Qed.

Lemma limit_query_invalid field (raw : option Z) :
  default 50 raw < 1 ∨ 100 < default 50 raw →
  Query.validate limit_query field raw = Invalid [field].
Proof.
  intros Hl. destruct raw as [z|]; simpl in *; [|lia].
  unfold Query.validate. simpl.
  destruct (Z.leb_spec 1 z); destruct (Z.leb_spec z 100); simpl; try done; lia.
Qed.

Lemma offset_query_valid field (raw : option Z) :
  0 ≤ default 0 raw →
  Query.validate offset_query field raw = Valid (default 0 raw).
Proof.
  intros Ho. destruct raw as [z|]; simpl in *; [|done].
  unfold Query.validate. simpl.
  destruct (Z.leb_spec 0 z); [done|lia].
Qed.

Lemma offset_query_invalid field (raw : option Z) :
  default 0 raw < 0 →
  Query.validate offset_query field raw = Invalid [field].
Proof.
  intros Ho. destruct raw as [z|]; simpl in *; [|lia].
  unfold Query.validate. simpl.
  destruct (Z.leb_spec 0 z); [lia|done].
Qed.

(** ** The routes *)

Section RouteProperties.
Context `{!Coercions}.

(** C7: when the GET of the forwarder times out, the forwarder fails with
    the 408 "Radio API timeout" error, and the response status is 408, not
    the 500 of the other transport failures. *)
Theorem timeout_is_reported_as_408 endpoint params w req :
  last (sent (make_radio_browser_request endpoint params w).2) = Some req →
  timed_out (upstream w (length (sent w)) req) = true →
  (make_radio_browser_request endpoint params w).1
    = Raise (HTTPException 408 "Radio API timeout")
  ∧ status_code_of (Handled (make_radio_browser_request endpoint params w).1) = 408
  ∧ status_code_of (Handled (make_radio_browser_request endpoint params w).1) ≠ 500.
Proof.
  destruct (make_radio_browser_request_run endpoint params w)
    as (host & _ & Hrun).
  rewrite Hrun. cbn [fst snd log_request sent].
  rewrite last_snoc. intros [= <-] Hout.
  rewrite (forwarded_timed_out _ Hout). by simpl.
Qed.

(** C8: the mirror list has exactly three hosts; every call of the
    forwarder, whatever its outcome, issues exactly one GET, to one host of
    that list, with the caller's parameters and the fixed User-Agent
    header; nothing is sent to another mirror after a failure. *)
Theorem one_get_to_one_mirror endpoint params w :
  length RADIO_BROWSER_SERVERS = 3%nat ∧
  ∃ host, host ∈ RADIO_BROWSER_SERVERS ∧
    sent (make_radio_browser_request endpoint params w).2 =
      sent w ++ [ {| url := ("https://" +:+ host) +:+ endpoint;
                     params := params;
                     headers := {[ "User-Agent" := "GlobalRadioApp/1.0" ]};
                     timeout_total := 10 |} ].
Proof.
  split; [done|].
  destruct (make_radio_browser_request_run endpoint params w)
    as (host & Hin & Hrun).
  exists host. split; [done|]. by rewrite Hrun.
Qed.

(** C2: the click endpoint always answers 200.  When the forwarder
    succeeds the body is the success message; when the forwarder raises
    [e] the body is the failure message with [str(e)], and nothing is
    raised. *)
Theorem click_always_answers_200 station_uuid w :
  status_code_of (POST_radio_click station_uuid w).1 = 200 ∧
  match (make_radio_browser_request ("/json/url/" +:+ station_uuid) None w).1 with
  | Ok _ =>
      (POST_radio_click station_uuid w).1 =
        Handled (Ok {[ "message" := "Click registered successfully" ]})
  | Raise e =>
      (POST_radio_click station_uuid w).1 =
        Handled (Ok {[ "message" := "Click registration failed";
                       "error" := str e ]})
  end.
Proof.
  unfold POST_radio_click, route, click_station, try_except.
  unfold mbind, IO_bind, mret, IO_ret.
  destruct (make_radio_browser_request ("/json/url/" +:+ station_uuid) None w)
    as [[v|e] w']; by simpl.
Qed.

(** C3: on search, popular and genres a limit outside [1,100], and on
    search a negative offset, is rejected by the validation of the
    parameters: the handler is not called and the world, hence the log of
    upstream calls, is unchanged.  With the limit in [1,100] and the offset
    at least 0, an absent limit being 50 and an absent offset 0, the
    request is forwarded with these values. *)
Theorem limit_and_offset_are_validated
    name country tag language (limit offset : option Z) w :
  let l := default 50 limit in
  let o := default 0 offset in
  (l < 1 ∨ 100 < l ∨ o < 0 →
     ∃ errors, GET_radio_search name country tag language limit offset w
                 = (Rejected errors, w))
  ∧ (l < 1 ∨ 100 < l →
     (∃ errors, GET_radio_popular limit w = (Rejected errors, w))
     ∧ (∃ errors, GET_radio_genres limit w = (Rejected errors, w)))
  ∧ (1 ≤ l ≤ 100 → 0 ≤ o →
     ∃ p, p !! "limit" = Some (PInt l) ∧ p !! "offset" = Some (PInt o)
          ∧ forwards_to "/json/stations/search" p w
              (GET_radio_search name country tag language limit offset w))
  ∧ (1 ≤ l ≤ 100 →
     (∃ p, p !! "limit" = Some (PInt l)
           ∧ forwards_to "/json/stations/search" p w (GET_radio_popular limit w))
     ∧ (∃ p, p !! "limit" = Some (PInt l)
             ∧ forwards_to "/json/tags" p w (GET_radio_genres limit w))).
Proof.
  intros l o. subst l o. repeat split.
  - unfold GET_radio_search, route. intros Hbad.
    destruct (decide (default 50 limit < 1 ∨ 100 < default 50 limit)) as [Hl|Hl].
    + rewrite (limit_query_invalid _ _ Hl).
      destruct (Query.validate offset_query "offset" offset); simpl; eauto.
    + rewrite (limit_query_valid "limit" limit) by lia.
      rewrite (offset_query_invalid "offset" offset) by lia.
      simpl; eauto.
  - unfold GET_radio_popular, route.
    rewrite (limit_query_invalid "limit" limit) by done. eauto.
  - unfold GET_radio_genres, route.
    rewrite (limit_query_invalid "limit" limit) by done. eauto.
  - intros Hl Ho. unfold GET_radio_search, route.
    rewrite (limit_query_valid "limit" limit) by done.
    rewrite (offset_query_valid "offset" offset) by done.
    cbn [ap]. unfold search_stations.
    eexists. split; [|split]; last first.
    + rewrite bind_lift. forwarder_runs host Hin.
      eexists _, host. by repeat split.
    + by rewrite !add_filter_lookup_ne.
    + by rewrite !add_filter_lookup_ne.
  - unfold GET_radio_popular, route.
    rewrite (limit_query_valid "limit" limit) by done.
    unfold get_popular_stations.
    eexists. split; last first.
    + rewrite bind_lift. forwarder_runs host Hin.
      eexists _, host. by repeat split.
    + done.
  - unfold GET_radio_genres, route.
    rewrite (limit_query_valid "limit" limit) by done.
    unfold get_genres.
    eexists. split; last first.
    + rewrite bind_lift. forwarder_runs host Hin.
      eexists _, host. by repeat split.
    + done.
Qed.

End RouteProperties.

(** ** Reshaping the upstream response *)

Lemma forwarded_Ok o v :
  forwarded o = Ok v →
  ∃ r, o = GetResponds r ∧ status r = 200 ∧ json_body r = Ok v.
Proof.
  destruct o as [e|r]; simpl; [by destruct e|].
  destruct (Z.eqb_spec (status r) 200) as [Hs|Hs]; simpl; [|done].
  destruct (json_body r) as [v'|e] eqn:Hbody; [|by destruct e].
  intros [= ->]. eauto.
Qed.

Lemma mapM_result_length {A B} (f : A → result B) items l :
  mapM f items = Ok l → length l = length items.
Proof.
  revert l. induction items as [|x items IH]; intros l; simpl.
  - by intros [= <-].
  - destruct (f x) as [y|e]; simpl; [|done].
    destruct (mapM f items) as [k|e]; simpl; [|done].
    intros [= <-]. simpl. f_equal. by apply IH.
Qed.

Lemma float_as_int_pos f n :
  SFltb (S754_zero false) f = true → float_as_int f = Some n → 0 < n.
Proof.
  destruct f as [s|s| |s m e]; simpl; try done.
  unfold SFltb. simpl. destruct s; [done|]. intros _.
  destruct (Z.leb_spec 0 e) as [He|He]; simpl.
  - intros [= <-]. apply Z.mul_pos_pos; [lia|]. by apply Z.pow_pos_nonneg.
  - destruct (Z.eqb_spec (Z.pos m `mod` 2 ^ (- e)) 0) as [Hm|Hm]; simpl; [|done].
    intros [= <-].
    assert (0 < 2 ^ (- e)) as Hpow by (apply Z.pow_pos_nonneg; lia).
    pose proof (Z.div_mod (Z.pos m) (2 ^ (- e))) as Hdiv.
    rewrite Hm in Hdiv. nia.
Qed.

Section ReshapingProperties.
Context `{!Coercions}.

(** An element that passes the test of [get_countries] and validates as an
    integer is a positive integer. *)
Lemma positive_count_validates v n :
  gt0 v = Ok true → validate_int v = Some n → 0 < n.
Proof.
  destruct v as [|b|z|f|s|l|d]; simpl; try done.
  - intros [= ->] [= <-]. done.
  - intros [= Hz] [= <-]. by apply Z.ltb_lt.
  - intros [= Hf]. by apply float_as_int_pos.
Qed.

Lemma Country_init_stationcount kw c :
  Country.init kw = Ok c →
  ∃ v, kw !! "stationcount" = Some v
       ∧ validate_int v = Some (Country.stationcount c).
Proof.
  unfold Country.init, construct, required.
  destruct (kw !! "name") as [v1|]; [destruct (validate_str v1)|];
  (destruct (kw !! "iso_3166_1") as [v2|]; [destruct (validate_str v2)|]);
  (destruct (kw !! "stationcount") as [v3|];
    [destruct (validate_int v3) eqn:Hv3|]); simpl; try done.
  intros [= <-]. eauto.
Qed.

Lemma countries_with_stations_positive items l :
  countries_with_stations items = Ok l →
  ∀ c, c ∈ l → 0 < Country.stationcount c.
Proof.
  revert l. induction items as [|country rest IH]; intros l; simpl.
  - intros [= <-] c Hc. by apply elem_of_nil in Hc.
  - destruct country as [| | | | | |d]; simpl; try done.
    destruct (gt0 (default (JInt 0) (d !! "stationcount")))
      as [[]|] eqn:Hgt; simpl; [| |done].
    + change (Country.of_json (JDict d)) with (Country.init d).
      destruct (Country.init d) as [c0|] eqn:Hinit; simpl; [|done].
      destruct (countries_with_stations rest) as [cs|]; simpl; [|done].
      intros [= <-] c [->|Hc]%elem_of_cons; [|by eapply IH].
      destruct (Country_init_stationcount _ _ Hinit) as (v & Hv & Hn).
      rewrite Hv in Hgt. simpl in Hgt.
      by eapply positive_count_validates.
    + apply IH.
Qed.

Lemma countries_with_stations_skip d rest :
  (d !! "stationcount" = None
   ∨ ∃ z, d !! "stationcount" = Some (JInt z) ∧ z ≤ 0) →
  countries_with_stations (JDict d :: rest) = countries_with_stations rest.
Proof.
  intros [Hd|(z & Hd & Hz)]; simpl; rewrite Hd; simpl; [done|].
  by destruct (Z.ltb_spec 0 z); [lia|].
Qed.

(** C4, as the code has it: within the bounds of limit and offset, a list
    returned by the search endpoint has exactly as many elements as the
    upstream response of the one GET it made; so it is no longer than the
    limit whenever the upstream response is not. *)
Theorem search_returns_as_many_as_upstream
    name country tag language (limit offset : option Z) w l :
  1 ≤ default 50 limit ≤ 100 →
  0 ≤ default 0 offset →
  (GET_radio_search name country tag language limit offset w).1
    = Handled (Ok l) →
  ∃ req r v items,
    last (sent (GET_radio_search name country tag language limit offset w).2)
      = Some req
    ∧ upstream w (length (sent w)) req = GetResponds r
    ∧ status r = 200
    ∧ json_body r = Ok v
    ∧ py_iter v = Ok items
    ∧ length l = length items
    ∧ (Z.of_nat (length items) ≤ default 50 limit →
       Z.of_nat (length l) ≤ default 50 limit).
Proof.
  intros Hl Ho. unfold GET_radio_search, route.
  rewrite (limit_query_valid "limit" limit) by done.
  rewrite (offset_query_valid "offset" offset) by done.
  cbn [ap]. unfold search_stations. rewrite bind_lift.
  forwarder_runs host Hin.
  cbn [fst snd log_request sent]. rewrite last_snoc.
  intros [= Hres].
  destruct (forwarded _) as [v|e] eqn:Hfwd; [|done].
  apply forwarded_Ok in Hfwd as (r & Hr & Hs & Hbody).
  simpl in Hres.
  destruct (py_iter v) as [items|e] eqn:Hiter; [|done].
  simpl in Hres.
  pose proof (mapM_result_length RadioStation.of_json items l Hres) as Hlen.
  eexists _, r, v, items. repeat split; try done. lia.
Qed.

(** C5: every entry of a list returned by the countries endpoint has a
    station count greater than 0; an upstream entry without a count, or
    with an integer count of 0 or less, is skipped. *)
Theorem countries_have_stations w :
  (∀ l, (GET_radio_countries w).1 = Handled (Ok l) →
        ∀ c, c ∈ l → 0 < Country.stationcount c)
  ∧ (∀ d rest,
       (d !! "stationcount" = None
        ∨ ∃ z, d !! "stationcount" = Some (JInt z) ∧ z ≤ 0) →
       countries_with_stations (JDict d :: rest)
         = countries_with_stations rest).
Proof.
  split; [|apply countries_with_stations_skip].
  intros l. unfold GET_radio_countries, route, get_countries.
  rewrite bind_lift. cbn [fst]. intros [= Hres].
  destruct (make_radio_browser_request "/json/countries" None w).1
    as [v|e]; [|done].
  simpl in Hres.
  destruct (py_iter v) as [items|e]; [|done].
  exact (countries_with_stations_positive items l Hres).
Qed.

(** C6: when the upstream lookup of the station gives an empty list, the
    station endpoint fails with the 404 "Station not found" error. *)
Theorem missing_station_is_404 station_uuid w :
  (make_radio_browser_request
     ("/json/stations/byuuid/" +:+ station_uuid) None w).1 = Ok (JList []) →
  (GET_radio_station station_uuid w).1
    = Handled (Raise (HTTPException 404 "Station not found"))
  ∧ status_code_of (GET_radio_station station_uuid w).1 = 404.
Proof.
  unfold GET_radio_station, route, get_station_details.
  unfold mbind, IO_bind.
  destruct (make_radio_browser_request _ None w) as [[v|e] w']; [|done].
  simpl. by intros [= ->].
Qed.

(** C10: when the upstream lookup of the station gives a non-empty list,
    the station endpoint answers with the record built from the first
    element of the list, and the other elements play no part. *)
Theorem station_is_first_element station_uuid w first rest :
  (make_radio_browser_request
     ("/json/stations/byuuid/" +:+ station_uuid) None w).1
    = Ok (JList (first :: rest)) →
  (GET_radio_station station_uuid w).1 = Handled (RadioStation.of_json first)
  ∧ ∀ st, RadioStation.of_json first = Ok st →
          (GET_radio_station station_uuid w).1 = Handled (Ok st)
          ∧ status_code_of (GET_radio_station station_uuid w).1 = 200.
Proof.
  intros Hfirst.
  assert ((GET_radio_station station_uuid w).1
            = Handled (RadioStation.of_json first)) as Hreply.
  { revert Hfirst. unfold GET_radio_station, route, get_station_details.
    unfold mbind at 1. unfold IO_bind.
    destruct (make_radio_browser_request _ None w) as [[v|e] w']; [|done].
    simpl. by intros [= ->]. }
  split; [done|]. intros st Hst. by rewrite Hreply, Hst.
Qed.

End ReshapingProperties.

(** ** The status-check log *)


Lemma mapM_IO_length {A B} (f : A → IO B) items w l :
  (mapM f items w).1 = Ok l → length l = length items.
Proof.
  revert w l. induction items as [|x items IH]; intros w l.
  - by intros [= <-].
  - cbn [mapM]. rewrite IO_bind_run.
    destruct (f x w) as [[y|e] w1]; [|done].
    rewrite IO_bind_run.
    destruct (mapM f items w1) as [[k|e] w2] eqn:Hk; [|done].
    simpl. intros [= <-]. simpl. f_equal.
    apply (IH w1). by rewrite Hk.
Qed.

Section StatusProperties.
Context `{!Coercions}.

Lemma new_StatusCheck_stored entry w :
  new_StatusCheck (stored entry) w = (Ok (read_back entry.2), tick w).
Proof. by destruct entry as [oid []]. Qed.

Lemma read_all entries w :
  (mapM new_StatusCheck (stored <$> entries) w).1
    = Ok (read_back <$> entries.*2).
Proof.
  revert w. induction entries as [|entry entries IH]; intros w; [done|].
  rewrite !fmap_cons. cbn [mapM].
  rewrite IO_bind_run, new_StatusCheck_stored, IO_bind_run.
  specialize (IH (tick w)).
  destruct (mapM new_StatusCheck (stored <$> entries) (tick w)) as [[k|e] w2];
    simpl in *; by simplify_eq.
Qed.

Lemma create_status_check_run input w :
  let status_obj :=
    {| StatusCheck.id := uuids w (ticks w);
       StatusCheck.client_name := StatusCheckCreate.client_name input;
       StatusCheck.timestamp := clock w (ticks w) |} in
  create_status_check input w =
    (Ok status_obj,
     store (stored (object_ids w (length (status_checks w)), status_obj))
       (tick w)).
Proof. by destruct input. Qed.

Lemma create_all inputs w entries :
  status_checks w = stored <$> entries →
  ∃ new w',
    mapM create_status_check inputs w = (Ok new.*2, w')
    ∧ length new = length inputs
    ∧ status_checks w' = stored <$> (entries ++ new).
Proof.
  revert w entries. induction inputs as [|input inputs IH];
    intros w entries Hw.
  - exists [], w. by rewrite app_nil_r.
  - cbn [mapM]. rewrite IO_bind_run, create_status_check_run.
    set (entry := (object_ids w (length (status_checks w)),
                   {| StatusCheck.id := uuids w (ticks w);
                      StatusCheck.client_name := StatusCheckCreate.client_name input;
                      StatusCheck.timestamp := clock w (ticks w) |})).
    destruct (IH (store (stored entry) (tick w)) (entries ++ [entry]))
      as (new & w' & Hrun & Hlen & Hw').
    { simpl. by rewrite Hw, fmap_app. }
    exists (entry :: new), w'.
    rewrite IO_bind_run, Hrun.
    repeat split; [by simpl; rewrite Hlen|].
    by rewrite Hw', <-app_assoc.
Qed.

Lemma get_status_checks_length w l :
  (get_status_checks w).1 = Ok l → (length l ≤ 1000)%nat.
Proof.
  unfold get_status_checks, find_to_list.
  rewrite IO_bind_run. intros Hl.
  apply mapM_IO_length in Hl. rewrite Hl, length_take. lia.
Qed.

Lemma listing_after_creations inputs w :
  status_checks w = [] →
  ∃ records w',
    mapM create_status_check inputs w = (Ok records, w')
    ∧ length records = length inputs
    ∧ (get_status_checks w').1 = Ok (read_back <$> take 1000 records).
Proof.
  intros Hw.
  destruct (create_all inputs w []) as (new & w' & Hrun & Hlen & Hw').
  { by rewrite Hw. }
  exists new.*2, w'. split; [done|].
  split; [by rewrite length_fmap|].
  unfold get_status_checks, find_to_list.
  rewrite IO_bind_run.
  rewrite Hw', app_nil_l, <-fmap_take, read_all.
  by rewrite fmap_take.
Qed.

(** With 1001 records created, the listing has 1000. *)
Example listing_of_1001 w :
  status_checks w = [] →
  ∃ records w' l,
    mapM create_status_check
      (replicate 1001 {| StatusCheckCreate.client_name := "probe" |}) w
      = (Ok records, w')
    ∧ (get_status_checks w').1 = Ok l
    ∧ length records = 1001%nat
    ∧ length l = 1000%nat.
Proof.
  intros Hw.
  destruct (listing_after_creations
              (replicate 1001 {| StatusCheckCreate.client_name := "probe" |})
              w Hw) as (records & w' & Hrun & Hlen & Hget).
  rewrite length_replicate in Hlen.
  exists records, w', (read_back <$> take 1000 records).
  split; [exact Hrun|]. split; [exact Hget|]. split; [exact Hlen|].
  rewrite length_fmap, length_take, Hlen. apply Nat.min_l. lia.
Qed.

(** C9: the status listing never has more than 1000 records.  After any
    number of records were created in an empty collection, it answers with
    the first 1000 of them, as they are read back, and without an error;
    the later ones are left out. *)
Theorem status_listing_is_capped inputs w :
  (∀ l, (get_status_checks w).1 = Ok l → (length l ≤ 1000)%nat)
  ∧ (status_checks w = [] →
     ∃ records w',
       mapM create_status_check inputs w = (Ok records, w')
       ∧ length records = length inputs
       ∧ (get_status_checks w').1 = Ok (read_back <$> take 1000 records)
       ∧ length (read_back <$> take 1000 records)
           = (length inputs `min` 1000)%nat).
Proof.
  split; [apply get_status_checks_length|].
  intros Hw.
  destruct (listing_after_creations inputs w Hw)
    as (records & w' & Hrun & Hlen & Hget).
  exists records, w'. repeat split; try done.
  rewrite length_fmap, length_take, Hlen. lia.
Qed.

End StatusProperties.

(** ** The model on the sample inputs *)

Example forwarder_returns_the_body :
  (make_radio_browser_request "/json/countries" None
     (answering (ok_response (JList [JInt 1])))).1 = Ok (JList [JInt 1]).
Proof. vm_compute. reflexivity. Qed.

Example forwarder_logs_the_request :
  sent (make_radio_browser_request "/json/tags" None
          (answering (GetRaises (Error "ClientConnectorError" "refused")))).2
    = [outbound "de1.api.radio-browser.info" "/json/tags" None].
Proof. vm_compute. reflexivity. Qed.

Example transport_failure_is_500 :
  (make_radio_browser_request "/json/tags" None
     (answering (GetRaises (Error "ClientConnectorError" "refused")))).1
    = Raise (HTTPException 500 "Radio API error: refused").
Proof. vm_compute. reflexivity. Qed.

Example click_survives_a_timeout :
  (POST_radio_click "u1" (answering (GetRaises (TimeoutError EmptyString)))).1
    = Handled (Ok {[ "message" := "Click registration failed";
                     "error" := "408: Radio API timeout" ]}).
Proof. vm_compute. reflexivity. Qed.

Example genres_are_reshaped :
  (@GET_radio_genres literal_only (Some 5)
     (answering (ok_response
        (JList [JDict {[ "name" := JStr "jazz"; "stationcount" := JInt 7;
                         "extra" := JNull ]}])))).1
    = Handled (Ok [ {| Genre.name := "jazz"; Genre.stationcount := 7 |} ]).
Proof. vm_compute. reflexivity. Qed.

Example fractional_count_is_refused :
  status_code_of
    (@GET_radio_countries literal_only
       (answering (ok_response
          (JList [JDict {[ "name" := JStr "Half"; "iso_3166_1" := JStr "HF";
                           "stationcount" := JFloat (S754_finite false 1 (-1)) ]}])))).1
    = 500.
Proof. vm_compute. reflexivity. Qed.

(** ** The theorems on the sample inputs *)

Lemma timeout_is_reported_as_408_witness :
  let w := answering (GetRaises (TimeoutError EmptyString)) in
  (make_radio_browser_request "/json/countries" None w).1
    = Raise (HTTPException 408 "Radio API timeout")
  ∧ status_code_of (Handled (make_radio_browser_request "/json/countries" None w).1) = 408
  ∧ status_code_of (Handled (make_radio_browser_request "/json/countries" None w).1) ≠ 500.
Proof.
  apply (timeout_is_reported_as_408 "/json/countries" None
           (answering (GetRaises (TimeoutError EmptyString)))
           (outbound "de1.api.radio-browser.info" "/json/countries" None)).
  - vm_compute. reflexivity.
  - vm_compute. reflexivity.
Defined.

Lemma limit_and_offset_are_validated_witness :
  (∃ errors,
     @GET_radio_search literal_only (Some "jazz") None None None
       (Some 101) (Some 0) two_stations = (Rejected errors, two_stations))
  ∧ (∃ p, p !! "limit" = Some (PInt 10) ∧ p !! "offset" = Some (PInt 0)
          ∧ forwards_to "/json/stations/search" p two_stations
              (@GET_radio_search literal_only (Some "jazz") None None None
                 (Some 10) None two_stations)).
Proof.
  split.
  - apply (@limit_and_offset_are_validated literal_only
             (Some "jazz") None None None (Some 101) (Some 0) two_stations).
    simpl. lia.
  - apply (@limit_and_offset_are_validated literal_only
             (Some "jazz") None None None (Some 10) None two_stations).
    + simpl. lia.
    + simpl. lia.
Defined.

Lemma search_exceeds_limit :
  (@GET_radio_search literal_only None None None None (Some 1) (Some 0)
     two_stations).1
    = Handled (Ok [station "u1" "One"; station "u2" "Two"])
  ∧ ¬ (Z.of_nat (length [station "u1" "One"; station "u2" "Two"]) ≤ 1).
Proof. split; [vm_compute; reflexivity|simpl; lia]. Qed.

Lemma search_returns_as_many_as_upstream_witness :
  ∃ req r v items,
    last (sent (@GET_radio_search literal_only None None None None
                  (Some 1) (Some 0) two_stations).2) = Some req
    ∧ upstream two_stations (length (sent two_stations)) req = GetResponds r
    ∧ status r = 200
    ∧ json_body r = Ok v
    ∧ py_iter v = Ok items
    ∧ length [station "u1" "One"; station "u2" "Two"] = length items
    ∧ (Z.of_nat (length items) ≤ default 50 (Some 1) →
       Z.of_nat (length [station "u1" "One"; station "u2" "Two"])
         ≤ default 50 (Some 1)).
Proof.
  apply (@search_returns_as_many_as_upstream literal_only
           None None None None (Some 1) (Some 0) two_stations).
  - simpl. lia.
  - simpl. lia.
  - vm_compute. reflexivity.
Defined.

Lemma countries_have_stations_witness :
  (@GET_radio_countries literal_only three_countries).1
    = Handled (Ok [ {| Country.name := "Austria"; Country.iso_3166_1 := "AT";
                       Country.stationcount := 3 |} ])
  ∧ 0 < Country.stationcount
          {| Country.name := "Austria"; Country.iso_3166_1 := "AT";
             Country.stationcount := 3 |}.
Proof.
  split.
  - vm_compute. reflexivity.
  - apply (proj1 (@countries_have_stations literal_only three_countries)
             [ {| Country.name := "Austria"; Country.iso_3166_1 := "AT";
                  Country.stationcount := 3 |} ]).
    + vm_compute. reflexivity.
    + apply list_elem_of_here.
Defined.

Lemma missing_station_is_404_witness :
  (@GET_radio_station literal_only "u9" (answering (ok_response (JList [])))).1
    = Handled (Raise (HTTPException 404 "Station not found"))
  ∧ status_code_of
      (@GET_radio_station literal_only "u9" (answering (ok_response (JList [])))).1
    = 404.
Proof.
  apply (@missing_station_is_404 literal_only "u9"
           (answering (ok_response (JList [])))).
  vm_compute. reflexivity.
Defined.

Lemma station_is_first_element_witness :
  (@GET_radio_station literal_only "u1" two_stations).1
    = Handled (Ok (station "u1" "One"))
  ∧ status_code_of (@GET_radio_station literal_only "u1" two_stations).1 = 200.
Proof.
  apply (proj2 (@station_is_first_element literal_only "u1" two_stations
                  (station_json "u1" "One") [station_json "u2" "Two"]
                  ltac:(vm_compute; reflexivity))).
  vm_compute. reflexivity.
Defined.

Lemma status_listing_is_capped_witness :
  ∃ records w',
    mapM (@create_status_check literal_only)
      [StatusCheckCreate.mk "probe"; StatusCheckCreate.mk "monitor"]
      (answering (GetRaises (TimeoutError EmptyString))) = (Ok records, w')
    ∧ length records = 2%nat
    ∧ (@get_status_checks literal_only w').1
        = Ok (read_back <$> take 1000 records)
    ∧ length (read_back <$> take 1000 records) = (2 `min` 1000)%nat.
Proof.
  apply (proj2 (@status_listing_is_capped literal_only
                  [StatusCheckCreate.mk "probe"; StatusCheckCreate.mk "monitor"]
                  (answering (GetRaises (TimeoutError EmptyString))))).
  reflexivity.
Defined.

(** * Further properties *)

(** ** The forwarder *)

Lemma forwarder_sends endpoint params w req :
  last (sent (make_radio_browser_request endpoint params w).2) = Some req →
  (make_radio_browser_request endpoint params w).1
    = forwarded (upstream w (length (sent w)) req).
Proof.
  destruct (make_radio_browser_request_run endpoint params w)
    as (host & _ & ->).
  cbn [fst snd log_request sent]. rewrite last_snoc. by intros [= <-].
Qed.

(** X1: The forwarder returns a value exactly when the upstream answered its
    GET with status 200 and a body that decodes, and the value is that
    body. *)
Theorem forwarder_returns_decoded_body endpoint params w req v :
  last (sent (make_radio_browser_request endpoint params w).2) = Some req →
  (make_radio_browser_request endpoint params w).1 = Ok v
  ↔ ∃ r, upstream w (length (sent w)) req = GetResponds r
         ∧ status r = 200 ∧ json_body r = Ok v.
Proof.
  intros Hreq. rewrite (forwarder_sends _ _ _ _ Hreq). split.
  - apply forwarded_Ok.
  - intros (r & -> & Hs & Hbody). simpl. rewrite Hs, Hbody. done.
Qed.

Lemma forwarded_Raise o e :
  forwarded o = Raise e →
  e = HTTPException 408 "Radio API timeout"
  ∨ ∃ detail, e = HTTPException 500 ("Radio API error: " +:+ detail).
Proof.
  destruct o as [e0|r]; simpl.
  - intros [= <-]. destruct e0; simpl; eauto.
  - destruct (status r =? 200).
    + destruct (json_body r) as [v|e0]; [done|].
      intros [= <-]. destruct e0; simpl; eauto.
    + intros [= <-]. simpl. eauto.
Qed.

(** X2: Whatever goes wrong, the forwarder fails with one of two errors: the
    408 timeout error, or a 500 error whose detail starts with
    "Radio API error: ".  No other status and no other exception leaves
    it. *)
Theorem forwarder_fails_with_408_or_500 endpoint params w e :
  (make_radio_browser_request endpoint params w).1 = Raise e →
  e = HTTPException 408 "Radio API timeout"
  ∨ ∃ detail, e = HTTPException 500 ("Radio API error: " +:+ detail).
Proof.
  destruct (make_radio_browser_request_run endpoint params w)
    as (host & _ & ->).
  apply forwarded_Raise.
Qed.

(** X3: A failure of the GET that is not a timeout, be it a refused connection
    or a 200 body that does not decode, reaches the caller as a 500 error
    that quotes the text of the failure. *)
Theorem transport_failure_is_reported_as_500 endpoint params w req e :
  last (sent (make_radio_browser_request endpoint params w).2) = Some req →
  failed_with (upstream w (length (sent w)) req) e →
  (∀ msg, e ≠ TimeoutError msg) →
  (make_radio_browser_request endpoint params w).1
    = Raise (HTTPException 500 ("Radio API error: " +:+ str e)).
Proof.
  intros Hreq Hfail Hne. rewrite (forwarder_sends _ _ _ _ Hreq).
  destruct Hfail as [->|(r & -> & Hs & Hbody)]; simpl.
  - destruct e; try done. by destruct (Hne msg).
  - rewrite Hs, Hbody. simpl. destruct e; try done. by destruct (Hne msg).
Qed.

(** ** The handlers as one GET followed by a reshaping *)

Lemma handler_run {B} endpoint params (f : json → result B) w :
  ∃ host, host ∈ RADIO_BROWSER_SERVERS ∧
    (x ← make_radio_browser_request endpoint params; lift (f x)) w =
      (forwarded (upstream w (length (sent w)) (outbound host endpoint params))
         ≫= f,
       log_request (outbound host endpoint params) (consume_draw w)).
Proof.
  rewrite bind_lift.
  destruct (make_radio_browser_request_run endpoint params w)
    as (host & Hin & ->).
  by exists host.
Qed.

Lemma forwards_at_most_once_refl w : forwards_at_most_once w w.
Proof.
  split; [reflexivity|]. exists []. split; [by rewrite app_nil_r|].
  simpl. lia.
Qed.

Lemma forwards_at_most_once_get w req :
  forwards_at_most_once w (log_request req (consume_draw w)).
Proof.
  split; [reflexivity|]. exists [req]. split; [reflexivity|].
  simpl. lia.
Qed.

Lemma route_forwards_at_most_once {X B} (args : validated X) endpoint
    (p : X → option (gmap string param)) (f : X → json → result B) w :
  forwards_at_most_once w
    (route args
       (λ x, v ← make_radio_browser_request endpoint (p x); lift (f x v)) w).2.
Proof.
  unfold route. destruct args as [x|errors];
    [|apply forwards_at_most_once_refl].
  destruct (handler_run endpoint (p x) (f x) w) as (host & _ & ->).
  apply forwards_at_most_once_get.
Qed.

Lemma get_station_details_lift `{!Coercions} station_uuid w :
  get_station_details station_uuid w =
    (stations ← make_radio_browser_request
                  ("/json/stations/byuuid/" +:+ station_uuid) None;
     lift (if negb (truthy stations)
           then Raise (HTTPException 404 "Station not found")
           else first ← getitem0 stations; RadioStation.of_json first)) w.
Proof.
  unfold get_station_details. rewrite !IO_bind_run.
  destruct (make_radio_browser_request _ None w) as [[v|e] w']; [|done].
  by destruct (truthy v).
Qed.

Section FurtherRouteProperties.
Context `{!Coercions}.


End FurtherRouteProperties.

(** ** What is sent upstream *)

Lemma add_filter_lookup key value (p : gmap string param) :
  p !! key = None → carries (add_filter key value p) key value.
Proof.
  intros Hp. unfold carries, add_filter. split.
  - intros s -> Hs. simpl.
    destruct (String.eqb_spec s EmptyString) as [|_]; [done|].
    simpl. apply lookup_insert_eq.
  - intros [->| ->]; [done|]. by simpl.
Qed.

Lemma carries_add_filter_ne key value key' value' (p : gmap string param) :
  key ≠ key' → carries p key value → carries (add_filter key' value' p) key value.
Proof.
  intros Hne [Hsome Hnone]. split.
  - intros s Hv Hs. rewrite add_filter_lookup_ne by done. by apply Hsome.
  - intros Hv. rewrite add_filter_lookup_ne by done. by apply Hnone.
Qed.

Lemma sent_unchanged_not_snoc (w : world) (req : request) :
  sent w ≠ sent w ++ [req].
Proof.
  intros Heq. apply (f_equal length) in Heq.
  rewrite length_app in Heq. simpl in Heq. lia.
Qed.

Lemma limit_query_bounds field raw z :
  Query.validate limit_query field raw = Valid z → 1 ≤ z ≤ 100.
Proof.
  unfold Query.validate. destruct raw as [z'|]; simpl.
  - destruct (Z.leb_spec 1 z'); destruct (Z.leb_spec z' 100); simpl;
      try done. intros [= <-]. lia.
  - intros [= <-]. lia.
Qed.

Lemma offset_query_bounds field raw z :
  Query.validate offset_query field raw = Valid z → 0 ≤ z.
Proof.
  unfold Query.validate. destruct raw as [z'|]; simpl.
  - destruct (Z.leb_spec 0 z'); simpl; try done. intros [= <-]. lia.
  - intros [= <-]. lia.
Qed.

(** Membership in a list that is written out. *)
Ltac in_list :=
  repeat first [apply list_elem_of_here | apply list_elem_of_further].

Section UpstreamParameters.
Context `{!Coercions}.

(** X5: The GET of a search goes to the search endpoint of a mirror.  Its
    parameters hold each of the four filters exactly when the filter was
    given and is not the empty string, always hold the three fixed
    settings, and have no key besides limit, offset, the settings and the
    filters. *)
Theorem search_sends_the_given_filters
    name country tag language limit offset w req :
  sent (GET_radio_search name country tag language limit offset w).2
    = sent w ++ [req] →
  ∃ host p,
    host ∈ RADIO_BROWSER_SERVERS
    ∧ url req = ("https://" +:+ host) +:+ "/json/stations/search"
    ∧ params req = Some p
    ∧ carries p "name" name
    ∧ carries p "country" country
    ∧ carries p "tag" tag
    ∧ carries p "language" language
    ∧ p !! "hidebroken" = Some (PStr "true")
    ∧ p !! "order" = Some (PStr "clickcount")
    ∧ p !! "reverse" = Some (PStr "true")
    ∧ ∀ k, k ∉ [ "limit"; "offset"; "hidebroken"; "order"; "reverse";
                 "name"; "country"; "tag"; "language" ] →
           p !! k = None.
Proof.
  unfold GET_radio_search, route.
  destruct (Valid pair <*> Query.validate limit_query "limit" limit
            <*> Query.validate offset_query "offset" offset)
    as [[l o]|errors]; [|by intros ?%sent_unchanged_not_snoc].
  unfold search_stations. rewrite bind_lift. forwarder_runs host Hin.
  cbn [snd log_request consume_draw sent].
  intros [= <-]%app_inv_head. eexists host, _.
  split; [done|]. split; [done|]. split; [done|].
  split_and!.
  - do 3 (apply carries_add_filter_ne; [done|]). by apply add_filter_lookup.
  - do 2 (apply carries_add_filter_ne; [done|]).
    apply add_filter_lookup. by rewrite add_filter_lookup_ne.
  - apply carries_add_filter_ne; [done|].
    apply add_filter_lookup. by rewrite !add_filter_lookup_ne.
  - apply add_filter_lookup. by rewrite !add_filter_lookup_ne.
  - by rewrite !add_filter_lookup_ne.
  - by rewrite !add_filter_lookup_ne.
  - by rewrite !add_filter_lookup_ne.
  - intros k Hk.
    rewrite !add_filter_lookup_ne by (intros <-; apply Hk; in_list).
    rewrite !lookup_insert_ne by (intros <-; apply Hk; in_list).
    apply lookup_singleton_ne. intros <-; apply Hk; in_list.
Qed.

(** X6: No GET with a limit outside [1,100] or a negative offset is ever sent:
    the limit of every GET of the search, popular and genres routes is
    within the bounds, and so is the offset of a search. *)
Theorem upstream_sees_bounded_limit
    name country tag language limit offset w req :
  (sent (GET_radio_search name country tag language limit offset w).2
     = sent w ++ [req] →
   ∃ p l o, params req = Some p
            ∧ p !! "limit" = Some (PInt l) ∧ 1 ≤ l ≤ 100
            ∧ p !! "offset" = Some (PInt o) ∧ 0 ≤ o)
  ∧ (sent (GET_radio_popular limit w).2 = sent w ++ [req] →
     ∃ p l, params req = Some p
            ∧ p !! "limit" = Some (PInt l) ∧ 1 ≤ l ≤ 100)
  ∧ (sent (GET_radio_genres limit w).2 = sent w ++ [req] →
     ∃ p l, params req = Some p
            ∧ p !! "limit" = Some (PInt l) ∧ 1 ≤ l ≤ 100).
Proof.
  split_and!.
  - unfold GET_radio_search, route.
    destruct (Query.validate limit_query "limit" limit) as [l|e1] eqn:Hl;
      destruct (Query.validate offset_query "offset" offset) as [o|e2] eqn:Ho;
      cbn [ap]; try by intros ?%sent_unchanged_not_snoc.
    unfold search_stations. rewrite bind_lift. forwarder_runs host Hin.
    cbn [snd log_request consume_draw sent].
    intros [= <-]%app_inv_head. eexists _, l, o.
    split; [done|].
    rewrite !add_filter_lookup_ne by done.
    apply limit_query_bounds in Hl. apply offset_query_bounds in Ho.
    split_and!; try done; lia.
  - unfold GET_radio_popular, route.
    destruct (Query.validate limit_query "limit" limit) as [l|e1] eqn:Hl;
      [|by intros ?%sent_unchanged_not_snoc].
    unfold get_popular_stations. rewrite bind_lift. forwarder_runs host Hin.
    cbn [snd log_request consume_draw sent].
    intros [= <-]%app_inv_head. eexists _, l.
    apply limit_query_bounds in Hl. split_and!; try done; lia.
  - unfold GET_radio_genres, route.
    destruct (Query.validate limit_query "limit" limit) as [l|e1] eqn:Hl;
      [|by intros ?%sent_unchanged_not_snoc].
    unfold get_genres. rewrite bind_lift. forwarder_runs host Hin.
    cbn [snd log_request consume_draw sent].
    intros [= <-]%app_inv_head. eexists _, l.
    apply limit_query_bounds in Hl. split_and!; try done; lia.
Qed.

End UpstreamParameters.

(** ** Reshaping, element by element *)

Lemma mapM_result_Ok {A B} (f : A → result B) items l :
  mapM f items = Ok l ↔ Forall2 (λ x y, f x = Ok y) items l.
Proof.
  revert l. induction items as [|x items IH]; intros l; simpl.
  - split.
    + intros [= <-]. constructor.
    + by intros ->%Forall2_nil_inv_l.
  - split.
    + destruct (f x) as [y|e] eqn:Hx; simpl; [|done].
      destruct (mapM f items) as [k|e] eqn:Hk; simpl; [|done].
      intros [= <-]. constructor; [done|]. by apply IH.
    + intros (y & k & Hx & Hk & ->)%Forall2_cons_inv_l.
      rewrite Hx. simpl. apply IH in Hk. rewrite Hk. done.
Qed.

Lemma mapM_result_Raise {A B} (f : A → result B) items :
  (∃ x, x ∈ items ∧ ∃ e, f x = Raise e) →
  ∃ x e, x ∈ items ∧ f x = Raise e ∧ mapM f items = Raise e.
Proof.
  induction items as [|x items IH]; intros (x0 & Hin & e0 & He0).
  - by apply elem_of_nil in Hin.
  - simpl. destruct (f x) as [y|e] eqn:Hx; simpl.
    + apply elem_of_cons in Hin as [->|Hin]; [congruence|].
      destruct IH as (x1 & e1 & Hin1 & Hx1 & ->); [by eauto|].
      exists x1, e1. split; [by apply elem_of_cons; right|]. done.
    + exists x, e. split; [by apply elem_of_cons; left|]. done.
Qed.

Lemma handler_on_ok_response {B} endpoint params (f : json → result B) w req v :
  sent ((x ← make_radio_browser_request endpoint params; lift (f x)) w).2
    = sent w ++ [req] →
  upstream w (length (sent w)) req = ok_response v →
  ((x ← make_radio_browser_request endpoint params; lift (f x)) w).1 = f v.
Proof.
  destruct (handler_run endpoint params f w) as (host & _ & ->).
  cbn [fst snd log_request consume_draw sent].
  intros [= <-]%app_inv_head ->. done.
Qed.

Lemma construct_errors {A} cls (v : validated A) e :
  construct cls v = Raise e → is_error e.
Proof. destruct v; [done|]. intros [= <-]. by eexists _, _. Qed.

Lemma py_iter_errors : raises_errors_only py_iter.
Proof. intros [] e; simpl; try done; intros [= <-]; by eexists _, _. Qed.

Lemma getitem_errors key : raises_errors_only (λ v, getitem v key).
Proof.
  intros [| | | | | |d] e; simpl; try (intros [= <-]; by eexists _, _).
  destruct (d !! key); [done|]. intros [= <-]. by eexists _, _.
Qed.

Lemma getitem0_errors : raises_errors_only getitem0.
Proof.
  intros [| | | |s|l|d] e; simpl; try (intros [= <-]; by eexists _, _).
  - destruct s; [|done]. intros [= <-]. by eexists _, _.
  - destruct l; [|done]. intros [= <-]. by eexists _, _.
Qed.

Lemma kwargs_errors cls : raises_errors_only (kwargs cls).
Proof. intros [] e; simpl; try done; intros [= <-]; by eexists _, _. Qed.

Lemma bind_errors {A B C} (f : A → result B) (g : B → result C) :
  raises_errors_only f → raises_errors_only g →
  raises_errors_only (λ x, f x ≫= g).
Proof.
  intros Hf Hg x e. simpl. destruct (f x) as [y|e'] eqn:Hx; simpl.
  - apply Hg.
  - intros [= <-]. by eapply Hf.
Qed.

Lemma mapM_errors {A B} (f : A → result B) :
  raises_errors_only f → raises_errors_only (mapM f).
Proof.
  intros Hf items. induction items as [|x items IH]; intros e; simpl; [done|].
  destruct (f x) as [y|e'] eqn:Hx; simpl.
  - destruct (mapM f items) as [k|e''] eqn:Hk; simpl; [done|].
    intros [= <-]. by apply IH.
  - intros [= <-]. by eapply Hf.
Qed.

Lemma forwarded_then_reshaped_status {B} o (f : json → result B) :
  raises_errors_only f →
  status_among [200; 408; 500] (Handled (forwarded o ≫= f)).
Proof.
  intros Hf. unfold status_among.
  destruct (forwarded o) as [v|e] eqn:Ho; simpl.
  - destruct (f v) as [y|e] eqn:Hv; simpl; [in_list|].
    destruct (Hf v e Hv) as (cls & msg & ->). in_list.
  - apply forwarded_Raise in Ho as [->|(detail & ->)]; in_list.
Qed.

Section Reshaping.
Context `{!Coercions}.

Lemma RadioStation_of_json_errors : raises_errors_only RadioStation.of_json.
Proof.
  apply (bind_errors (kwargs "RadioStation")); [apply kwargs_errors|].
  intros kw e. apply construct_errors.
Qed.

Lemma Country_of_json_errors : raises_errors_only Country.of_json.
Proof.
  apply (bind_errors (kwargs "Country")); [apply kwargs_errors|].
  intros kw e. apply construct_errors.
Qed.

Lemma genre_of_json_errors : raises_errors_only genre_of_json.
Proof.
  intros genre e. unfold genre_of_json.
  destruct (getitem genre "name") as [n|e'] eqn:Hn; simpl;
    [|intros [= <-]; by eapply (getitem_errors "name")].
  destruct (getitem genre "stationcount") as [c|e'] eqn:Hc; simpl;
    [|intros [= <-]; by eapply (getitem_errors "stationcount")].
  apply construct_errors.
Qed.

Lemma countries_with_stations_errors :
  raises_errors_only countries_with_stations.
Proof.
  intros items. induction items as [|country rest IH]; intros e; simpl; [done|].
  destruct country as [| | | | | |d]; simpl;
    try (intros [= <-]; by eexists _, _).
  destruct (gt0 (default (JInt 0) (d !! "stationcount"))) as [[]|e'] eqn:Hgt;
    simpl.
  - change (Country.of_json (JDict d)) with (Country.init d).
    destruct (Country.init d) as [c|e'] eqn:Hc; simpl;
      [|intros [= <-]; by eapply construct_errors].
    destruct (countries_with_stations rest) as [cs|e'] eqn:Hcs; simpl; [done|].
    intros [= <-]. by apply IH.
  - apply IH.
  - intros [= <-].
    destruct (default (JInt 0) (d !! "stationcount")); simpl in Hgt;
      try done; injection Hgt as <-; by eexists _, _.
Qed.

Lemma search_stations_on_ok_response
    name country tag language limit offset w req v :
  sent (search_stations name country tag language limit offset w).2
    = sent w ++ [req] →
  upstream w (length (sent w)) req = ok_response v →
  (search_stations name country tag language limit offset w).1
    = (items ← py_iter v; mapM RadioStation.of_json items).
Proof.
  unfold search_stations.
  apply (handler_on_ok_response _ _
           (λ stations, items ← py_iter stations;
                        mapM RadioStation.of_json items)).
Qed.

Lemma get_popular_stations_on_ok_response limit w req v :
  sent (get_popular_stations limit w).2 = sent w ++ [req] →
  upstream w (length (sent w)) req = ok_response v →
  (get_popular_stations limit w).1
    = (items ← py_iter v; mapM RadioStation.of_json items).
Proof.
  unfold get_popular_stations.
  apply (handler_on_ok_response _ _
           (λ stations, items ← py_iter stations;
                        mapM RadioStation.of_json items)).
Qed.

Lemma Handled_Ok_inj {A} (r : result A) l :
  Handled r = Handled (Ok l) ↔ r = Ok l.
Proof. split; [by intros [= ->]|by intros ->]. Qed.

(** X7: A search or a popular request whose GET is answered with status 200
    and a list returns a list exactly when every element of the upstream
    list validates as a station, and then the records come in the order
    of the upstream list, each built from the element at its position. *)
Theorem stations_are_reshaped_in_order
    name country tag language limit offset w req items :
  upstream w (length (sent w)) req = ok_response (JList items) →
  (sent (GET_radio_search name country tag language limit offset w).2
     = sent w ++ [req] →
   ∀ l, (GET_radio_search name country tag language limit offset w).1
          = Handled (Ok l)
        ↔ Forall2 (λ item st, RadioStation.of_json item = Ok st) items l)
  ∧ (sent (GET_radio_popular limit w).2 = sent w ++ [req] →
     ∀ l, (GET_radio_popular limit w).1 = Handled (Ok l)
          ↔ Forall2 (λ item st, RadioStation.of_json item = Ok st) items l).
Proof.
  intros Hup. split.
  - unfold GET_radio_search, route.
    destruct (Valid pair <*> Query.validate limit_query "limit" limit
              <*> Query.validate offset_query "offset" offset)
      as [[l0 o]|errors]; [|by intros ?%sent_unchanged_not_snoc].
    pose proof (search_stations_on_ok_response
                  name country tag language l0 o w req (JList items)) as Hr.
    destruct (search_stations name country tag language l0 o w) as [r w'].
    cbn [fst snd] in *. intros Hsent l.
    rewrite Handled_Ok_inj, (Hr Hsent Hup). apply mapM_result_Ok.
  - unfold GET_radio_popular, route.
    destruct (Query.validate limit_query "limit" limit) as [l0|errors];
      [|by intros ?%sent_unchanged_not_snoc].
    pose proof (get_popular_stations_on_ok_response
                  l0 w req (JList items)) as Hr.
    destruct (get_popular_stations l0 w) as [r w'].
    cbn [fst snd] in *. intros Hsent l.
    rewrite Handled_Ok_inj, (Hr Hsent Hup). apply mapM_result_Ok.
Qed.

End Reshaping.

Lemma ap_Valid {A B} (vf : validated (A → B)) (va : validated A) y :
  vf <*> va = Valid y → ∃ f a, vf = Valid f ∧ va = Valid a ∧ y = f a.
Proof. destruct vf, va; simpl; try done. intros [= <-]. eauto. Qed.

Lemma forwarded_then_status {B} o (f : json → result B) codes :
  (∀ v, status_code_of (Handled (f v)) ∈ codes) →
  408 ∈ codes → 500 ∈ codes →
  status_among codes (Handled (forwarded o ≫= f)).
Proof.
  intros Hf H408 H500. unfold status_among.
  destruct (forwarded o) as [v|e] eqn:Ho; [apply Hf|].
  by apply forwarded_Raise in Ho as [->|(detail & ->)].
Qed.

Section ReshapingFailures.
Context `{!Coercions}.

Lemma required_Valid {T} (validate : json → option T) field kw x :
  required validate field kw = Valid x →
  ∃ v, kw !! field = Some v ∧ validate v = Some x.
Proof.
  unfold required. destruct (kw !! field) as [v|]; [|done].
  destruct (validate v) eqn:Hv; [|done]. intros [= <-]. eauto.
Qed.

Lemma validate_str_Some v s : validate_str v = Some s → v = JStr s.
Proof. destruct v; simpl; try done. by intros [= <-]. Qed.

(** X8: There are no partial results: when one element of the upstream list
    does not validate as a station, the search or popular request fails
    as a whole, with status 500. *)
Theorem one_invalid_station_fails_the_request
    name country tag language limit offset w req items :
  upstream w (length (sent w)) req = ok_response (JList items) →
  (∃ item, item ∈ items ∧ ∃ e, RadioStation.of_json item = Raise e) →
  (sent (GET_radio_search name country tag language limit offset w).2
     = sent w ++ [req] →
   status_code_of
     (GET_radio_search name country tag language limit offset w).1 = 500)
  ∧ (sent (GET_radio_popular limit w).2 = sent w ++ [req] →
     status_code_of (GET_radio_popular limit w).1 = 500).
Proof.
  intros Hup Hbad.
  destruct (mapM_result_Raise RadioStation.of_json items Hbad)
    as (item & e & _ & Hitem & Hmap).
  destruct (RadioStation_of_json_errors item e Hitem) as (cls & msg & ->).
  split.
  - unfold GET_radio_search, route.
    destruct (Valid pair <*> Query.validate limit_query "limit" limit
              <*> Query.validate offset_query "offset" offset)
      as [[l0 o]|errors]; [|by intros ?%sent_unchanged_not_snoc].
    pose proof (search_stations_on_ok_response
                  name country tag language l0 o w req (JList items)) as Hr.
    destruct (search_stations name country tag language l0 o w) as [r w'].
    cbn [fst snd] in *. intros Hsent.
    rewrite (Hr Hsent Hup). simpl. by rewrite Hmap.
  - unfold GET_radio_popular, route.
    destruct (Query.validate limit_query "limit" limit) as [l0|errors];
      [|by intros ?%sent_unchanged_not_snoc].
    pose proof (get_popular_stations_on_ok_response
                  l0 w req (JList items)) as Hr.
    destruct (get_popular_stations l0 w) as [r w'].
    cbn [fst snd] in *. intros Hsent.
    rewrite (Hr Hsent Hup). simpl. by rewrite Hmap.
Qed.

(** X9: The status codes of the routes.  Search, popular and genres answer
    200, 422, 408 or 500; countries 200, 408 or 500; the station route
    200, 404, 408 or 500; the click route 200.  A status of the upstream
    is never passed on. *)
Theorem radio_routes_status_codes
    name country tag language limit offset station_uuid w :
  status_among [200; 422; 408; 500]
    (GET_radio_search name country tag language limit offset w).1
  ∧ status_among [200; 422; 408; 500] (GET_radio_popular limit w).1
  ∧ status_among [200; 422; 408; 500] (GET_radio_genres limit w).1
  ∧ status_among [200; 408; 500] (GET_radio_countries w).1
  ∧ status_among [200; 404; 408; 500] (GET_radio_station station_uuid w).1
  ∧ status_among [200] (POST_radio_click station_uuid w).1.
Proof.
  assert (∀ {B} (r : reply B),
            status_among [200; 408; 500] r →
            status_among [200; 422; 408; 500] r) as Hweaken.
  { unfold status_among. intros B r Hr.
    repeat (apply elem_of_cons in Hr as [->|Hr]); try in_list.
    by apply elem_of_nil in Hr. }
  split_and!.
  - unfold GET_radio_search, route.
    destruct (Valid pair <*> Query.validate limit_query "limit" limit
              <*> Query.validate offset_query "offset" offset)
      as [[l0 o]|errors]; [|unfold status_among; simpl; in_list].
    unfold search_stations.
    match goal with
    | |- context [make_radio_browser_request ?e ?p] =>
        destruct (handler_run e p
                    (λ stations, items ← py_iter stations;
                                 mapM RadioStation.of_json items) w)
          as (host & _ & ->)
    end.
    apply Hweaken, forwarded_then_reshaped_status.
    apply (bind_errors py_iter); [apply py_iter_errors|].
    apply mapM_errors, RadioStation_of_json_errors.
  - unfold GET_radio_popular, route.
    destruct (Query.validate limit_query "limit" limit) as [l0|errors];
      [|unfold status_among; simpl; in_list].
    unfold get_popular_stations.
    match goal with
    | |- context [make_radio_browser_request ?e ?p] =>
        destruct (handler_run e p
                    (λ stations, items ← py_iter stations;
                                 mapM RadioStation.of_json items) w)
          as (host & _ & ->)
    end.
    apply Hweaken, forwarded_then_reshaped_status.
    apply (bind_errors py_iter); [apply py_iter_errors|].
    apply mapM_errors, RadioStation_of_json_errors.
  - unfold GET_radio_genres, route.
    destruct (Query.validate limit_query "limit" limit) as [l0|errors];
      [|unfold status_among; simpl; in_list].
    unfold get_genres.
    match goal with
    | |- context [make_radio_browser_request ?e ?p] =>
        destruct (handler_run e p
                    (λ genres, items ← py_iter genres;
                               mapM genre_of_json items) w)
          as (host & _ & ->)
    end.
    apply Hweaken, forwarded_then_reshaped_status.
    apply (bind_errors py_iter); [apply py_iter_errors|].
    apply mapM_errors, genre_of_json_errors.
  - unfold GET_radio_countries, route, get_countries.
    destruct (handler_run "/json/countries" None
                (λ countries, items ← py_iter countries;
                              countries_with_stations items) w)
      as (host & _ & ->).
    apply forwarded_then_reshaped_status.
    apply (bind_errors py_iter); [apply py_iter_errors|].
    apply countries_with_stations_errors.
  - unfold GET_radio_station, route.
    rewrite get_station_details_lift.
    destruct (handler_run ("/json/stations/byuuid/" +:+ station_uuid) None
                (λ stations,
                   if negb (truthy stations)
                   then Raise (HTTPException 404 "Station not found")
                   else first ← getitem0 stations;
                        RadioStation.of_json first) w)
      as (host & _ & ->).
    apply forwarded_then_status; [|in_list|in_list].
    intros v. destruct (truthy v); cbn [negb]; [|simpl; in_list].
    destruct (getitem0 v ≫= _) as [st|e] eqn:Hst;
      [simpl; in_list|].
    destruct (bind_errors getitem0 RadioStation.of_json
                getitem0_errors RadioStation_of_json_errors v e Hst)
      as (cls & msg & ->).
    simpl. in_list.
  - unfold status_among, POST_radio_click, route, click_station, try_except.
    rewrite IO_bind_run.
    destruct (make_radio_browser_request _ None w) as [[v|e] w'];
      simpl; in_list.
Qed.

End ReshapingFailures.

(** ** The records *)

Section Records.
Context `{!Coercions}.

(** X10: A key of the upstream object that is not a field of the station model
    has no effect: the record, or the validation error, is the same with
    and without it. *)
Theorem unknown_station_keys_are_dropped kw k v :
  k ∉ station_fields →
  RadioStation.init (<[k := v]> kw) = RadioStation.init kw.
Proof.
  intros Hk. unfold RadioStation.init, required, optional.
  rewrite !lookup_insert_ne by (intros ->; apply Hk; in_list).
  done.
Qed.

(** X11: The identifier, the name and the stream address of a station record
    are the strings the upstream object holds under these keys: they are
    required, and they are never converted from another type. *)
Theorem station_keeps_its_required_strings v st :
  RadioStation.of_json v = Ok st →
  ∃ d, v = JDict d
       ∧ d !! "stationuuid" = Some (JStr (RadioStation.stationuuid st))
       ∧ d !! "name" = Some (JStr (RadioStation.name st))
       ∧ d !! "url" = Some (JStr (RadioStation.url st)).
Proof.
  destruct v as [| | | | | |d]; try done.
  change (RadioStation.of_json (JDict d)) with (RadioStation.init d).
  unfold RadioStation.init, construct.
  match goal with
  | |- match ?c with _ => _ end = _ → _ => destruct c as [st'|] eqn:Hc
  end; [|done].
  intros [= ->]. exists d. split; [done|].
  repeat match goal with
  | H : _ <*> _ = Valid _ |- _ =>
      apply ap_Valid in H as (? & ? & H & ? & ->)
  end.
  injection Hc as <-. cbn.
  repeat match goal with
  | H : required validate_str _ _ = Valid _ |- _ =>
      apply required_Valid in H as (? & H & ->%validate_str_Some)
  end.
  done.
Qed.

End Records.

(** ** Countries, genres and the station lookup *)

Section Listings.
Context `{!Coercions}.

Lemma Country_of_json_Country_json c :
  Country.of_json (Country_json c) = Ok c.
Proof. by destruct c. Qed.

Lemma countries_with_stations_well_formed cs :
  countries_with_stations (Country_json <$> cs)
    = Ok (filter (λ c, 0 < Country.stationcount c) cs).
Proof.
  induction cs as [|c cs IH]; [done|].
  rewrite fmap_cons. cbn [countries_with_stations].
  change (get (Country_json c) "stationcount" (JInt 0))
    with (Ok (JInt (Country.stationcount c)) : result json).
  cbn [mbind result_bind gt0].
  rewrite Country_of_json_Country_json, IH. cbn [mbind result_bind].
  rewrite filter_cons.
  destruct (Z.ltb_spec 0 (Country.stationcount c));
    destruct (decide (0 < Country.stationcount c)); try lia; done.
Qed.

Lemma get_countries_on_ok_response w req v :
  sent (get_countries w).2 = sent w ++ [req] →
  upstream w (length (sent w)) req = ok_response v →
  (get_countries w).1 = (items ← py_iter v; countries_with_stations items).
Proof.
  unfold get_countries.
  apply (handler_on_ok_response _ _
           (λ countries, items ← py_iter countries;
                         countries_with_stations items)).
Qed.

Lemma get_genres_on_ok_response limit w req v :
  sent (get_genres limit w).2 = sent w ++ [req] →
  upstream w (length (sent w)) req = ok_response v →
  (get_genres limit w).1 = (items ← py_iter v; mapM genre_of_json items).
Proof.
  unfold get_genres.
  apply (handler_on_ok_response _ _
           (λ genres, items ← py_iter genres; mapM genre_of_json items)).
Qed.

(** X12: When the upstream answers the countries request with a list of
    well-formed country objects, the endpoint returns exactly those with
    a positive station count, unchanged and in the upstream order. *)
Theorem countries_are_the_upstream_ones_with_stations w req cs :
  sent (GET_radio_countries w).2 = sent w ++ [req] →
  upstream w (length (sent w)) req
    = ok_response (JList (Country_json <$> cs)) →
  (GET_radio_countries w).1
    = Handled (Ok (filter (λ c, 0 < Country.stationcount c) cs)).
Proof.
  unfold GET_radio_countries, route.
  pose proof (get_countries_on_ok_response w req
                (JList (Country_json <$> cs))) as Hr.
  destruct (get_countries w) as [r w'].
  cbn [fst snd] in *. intros Hsent Hup. rewrite (Hr Hsent Hup). simpl.
  by rewrite countries_with_stations_well_formed.
Qed.

(** X13: The entries of a countries response are handled one after the other:
    the result for a list in two parts is the result for the first part
    followed by the result for the second, and the first failure is the
    failure of the whole. *)
Theorem countries_are_handled_in_turn xs ys :
  countries_with_stations (xs ++ ys)
    = (l1 ← countries_with_stations xs;
       l2 ← countries_with_stations ys;
       Ok (l1 ++ l2)).
Proof.
  induction xs as [|x xs IH]; simpl.
  - by destruct (countries_with_stations ys).
  - destruct (get x "stationcount" (JInt 0)) as [count|e]; simpl; [|done].
    destruct (gt0 count) as [[]|e]; simpl; [| |done].
    + destruct (Country.of_json x) as [c|e]; simpl; [|done].
      rewrite IH.
      destruct (countries_with_stations xs) as [l1|e]; simpl; [|done].
      by destruct (countries_with_stations ys).
    + apply IH.
Qed.

Lemma genre_of_json_Ok item g :
  genre_of_json item = Ok g →
  ∃ d v, item = JDict d
         ∧ d !! "name" = Some (JStr (Genre.name g))
         ∧ d !! "stationcount" = Some v
         ∧ validate_int v = Some (Genre.stationcount g).
Proof.
  unfold genre_of_json.
  destruct item as [| | | | | |d]; try done. simpl.
  destruct (d !! "name") as [n|] eqn:Hn; simpl; [|done].
  destruct (d !! "stationcount") as [c|] eqn:Hc; simpl; [|done].
  unfold Genre.init, construct.
  match goal with
  | |- match ?c with _ => _ end = _ → _ => destruct c as [g'|] eqn:Hg
  end; [|done].
  intros [= ->].
  repeat match goal with
  | H : _ <*> _ = Valid _ |- _ =>
      apply ap_Valid in H as (? & ? & H & ? & ->)
  end.
  injection Hg as <-.
  match goal with
  | H : required validate_str _ _ = Valid _ |- _ =>
      apply required_Valid in H as (v1 & Hv1 & Hs);
      apply validate_str_Some in Hs
  end.
  match goal with
  | H : required validate_int _ _ = Valid _ |- _ =>
      apply required_Valid in H as (v2 & Hv2 & Hint)
  end.
  rewrite lookup_insert_eq in Hv1.
  rewrite lookup_insert_ne, lookup_singleton_eq in Hv2 by done.
  simplify_eq. eexists d, _. by cbn.
Qed.

(** X14: The genres endpoint does not filter: a list it returns has one record
    for each element of the upstream list, in order, with the name the
    element holds and its validated count, a count of 0 included. *)
Theorem genres_are_not_filtered limit w req items l :
  sent (GET_radio_genres limit w).2 = sent w ++ [req] →
  upstream w (length (sent w)) req = ok_response (JList items) →
  (GET_radio_genres limit w).1 = Handled (Ok l) →
  length l = length items
  ∧ Forall2
      (λ item g,
         ∃ d v, item = JDict d
                ∧ d !! "name" = Some (JStr (Genre.name g))
                ∧ d !! "stationcount" = Some v
                ∧ validate_int v = Some (Genre.stationcount g))
      items l.
Proof.
  unfold GET_radio_genres, route.
  destruct (Query.validate limit_query "limit" limit) as [l0|errors];
    [|by intros ?%sent_unchanged_not_snoc].
  pose proof (get_genres_on_ok_response l0 w req (JList items)) as Hr.
  destruct (get_genres l0 w) as [r w'].
  cbn [fst snd] in *. intros Hsent Hup. rewrite (Hr Hsent Hup). simpl.
  intros [= Hl].
  apply mapM_result_Ok in Hl. split.
  - symmetry. by eapply Forall2_length.
  - eapply Forall2_impl; [exact Hl|]. intros item g. apply genre_of_json_Ok.
Qed.

Lemma falsy_values v :
  truthy v = false ↔
  v = JNull ∨ v = JBool false ∨ v = JInt 0
  ∨ (∃ s, v = JFloat (S754_zero s)) ∨ v = JStr EmptyString
  ∨ v = JList [] ∨ v = JDict ∅.
Proof.
  split.
  - destruct v as [|b|z|f|s|l|d]; simpl.
    + eauto.
    + intros ->. eauto.
    + intros ->%negb_false_iff%Z.eqb_eq. eauto.
    + destruct f; try done. eauto 10.
    + intros ->%negb_false_iff%String.eqb_eq. eauto 10.
    + intros ->%negb_false_iff%bool_decide_eq_true. eauto 10.
    + intros ->%negb_false_iff%bool_decide_eq_true. eauto 10.
  - intros [->|[->|[->|[[s ->]|[->|[->| ->]]]]]]; done.
Qed.

(** X15: The station route answers 404 for every empty upstream answer, not
    only for the empty list: null, false, zero, the empty string and the
    empty object are "not found" as well. *)
Theorem empty_answers_are_404 station_uuid w v :
  (make_radio_browser_request
     ("/json/stations/byuuid/" +:+ station_uuid) None w).1 = Ok v →
  v = JNull ∨ v = JBool false ∨ v = JInt 0
  ∨ (∃ s, v = JFloat (S754_zero s)) ∨ v = JStr EmptyString
  ∨ v = JList [] ∨ v = JDict ∅ →
  (GET_radio_station station_uuid w).1
    = Handled (Raise (HTTPException 404 "Station not found")).
Proof.
  intros Hv Hfalsy%falsy_values.
  unfold GET_radio_station, route. rewrite get_station_details_lift.
  rewrite bind_lift. cbn [fst]. rewrite Hv. simpl. by rewrite Hfalsy.
Qed.

End Listings.

(** ** More on the status-check log *)

Section StatusLog.
Context `{!Coercions}.


Lemma mapM_new_StatusCheck_world docs w :
  status_checks (mapM new_StatusCheck docs w).2 = status_checks w
  ∧ sent (mapM new_StatusCheck docs w).2 = sent w.
Proof.
  revert w. induction docs as [|doc docs IH]; intros w; [done|].
  cbn [mapM]. rewrite IO_bind_run.
  assert ((new_StatusCheck doc w).2 = tick w) as Htick by reflexivity.
  destruct (new_StatusCheck doc w) as [[s|e] w1]; cbn [snd] in Htick;
    subst w1; [|split; reflexivity].
  rewrite IO_bind_run.
  specialize (IH (tick w)).
  destruct (mapM new_StatusCheck docs (tick w)) as [[k|e] w2]; exact IH.
Qed.

(** X17: Listing the status checks changes nothing: the collection is as it
    was, and nothing is sent upstream, whether the listing succeeds or
    not. *)
Theorem status_listing_is_read_only w :
  status_checks (get_status_checks w).2 = status_checks w
  ∧ sent (get_status_checks w).2 = sent w.
Proof.
  unfold get_status_checks, find_to_list. rewrite IO_bind_run.
  apply mapM_new_StatusCheck_world.
Qed.

Lemma listing_of_stored entries w :
  status_checks w = stored <$> entries →
  (get_status_checks w).1 = Ok (read_back <$> take 1000 entries.*2).
Proof.
  intros Hw. unfold get_status_checks, find_to_list.
  rewrite IO_bind_run, Hw, <-fmap_take, read_all. by rewrite fmap_take.
Qed.

(** X18: A record that was just created shows up in the listing, as its last
    entry and with its date cut to milliseconds, if the collection held
    fewer than 1000 records before.  If it held 1000 or more, the listing
    is what it was before the creation, and the new record is not in
    it. *)
Theorem new_record_is_listed_below_the_cap input w entries :
  status_checks w = stored <$> entries →
  ∃ status_obj,
    (create_status_check input w).1 = Ok status_obj
    ∧ ((length entries < 1000)%nat →
       ∃ l, (get_status_checks (create_status_check input w).2).1 = Ok l
            ∧ last l = Some (read_back status_obj))
    ∧ ((1000 ≤ length entries)%nat →
       (get_status_checks (create_status_check input w).2).1
         = (get_status_checks w).1).
Proof.
  intros Hw. rewrite create_status_check_run.
  set (s := {| StatusCheck.id := uuids w (ticks w);
               StatusCheck.client_name := StatusCheckCreate.client_name input;
               StatusCheck.timestamp := clock w (ticks w) |}).
  set (entry := (object_ids w (length (status_checks w)), s)).
  exists s. split; [done|]. cbn [fst snd].
  assert (status_checks (store (stored entry) (tick w))
            = stored <$> (entries ++ [entry])) as Hw'.
  { simpl. by rewrite Hw, fmap_app. }
  rewrite (listing_of_stored _ _ Hw'). split.
  - intros Hlt. eexists. split; [done|].
    rewrite fmap_app, take_ge by (rewrite length_app, !length_fmap; simpl; lia).
    rewrite fmap_app. apply last_snoc.
  - intros Hge. rewrite (listing_of_stored _ _ Hw).
    by rewrite fmap_app, take_app_le by (rewrite length_fmap; lia).
Qed.

(** X19: The listing looks at the first 1000 documents only: whatever follows
    them, well-formed or not, does not change the answer. *)
Theorem listing_ignores_what_follows_the_first_1000 w entries rest :
  status_checks w = (stored <$> entries) ++ rest →
  (1000 ≤ length entries)%nat →
  (get_status_checks w).1 = Ok (read_back <$> take 1000 entries.*2).
Proof.
  intros Hw Hge. unfold get_status_checks, find_to_list.
  rewrite IO_bind_run, Hw, take_app_le by (rewrite length_fmap; lia).
  rewrite <-fmap_take, read_all. by rewrite fmap_take.
Qed.

Lemma mapM_IO_app {A B} (f : A → IO B) xs ys w :
  mapM f (xs ++ ys) w =
    (l1 ← mapM f xs; l2 ← mapM f ys; mret (l1 ++ l2)) w.
Proof.
  revert w. induction xs as [|x xs IH]; intros w.
  - cbn [app mapM]. rewrite !IO_bind_run. cbn.
    rewrite IO_bind_run. by destruct (mapM f ys w) as [[l2|e] w2].
  - cbn [app mapM]. rewrite !IO_bind_run.
    destruct (f x w) as [[y|e] w1]; [|done].
    rewrite !IO_bind_run, IH, !IO_bind_run.
    destruct (mapM f xs w1) as [[l1|e] w2]; [|done]. cbn.
    rewrite !IO_bind_run.
    by destruct (mapM f ys w2) as [[l2|e] w3].
Qed.

(** X20: One document without a client name among the first 1000 makes the
    whole listing fail: no record is returned, not even those of the
    well-formed documents before it. *)
Theorem one_malformed_document_fails_the_listing w entries doc rest :
  status_checks w = (stored <$> entries) ++ doc :: rest →
  (length entries < 1000)%nat →
  doc !! "client_name" = None →
  ∃ e, (get_status_checks w).1 = Raise e ∧ is_error e.
Proof.
  intros Hw Hlt Hdoc. unfold get_status_checks, find_to_list.
  rewrite IO_bind_run, Hw.
  rewrite take_app_ge by (rewrite length_fmap; lia).
  rewrite length_fmap.
  destruct (1000 - length entries)%nat as [|n] eqn:Hn; [lia|].
  rewrite firstn_cons, mapM_IO_app, IO_bind_run.
  pose proof (read_all entries w) as Hread.
  destruct (mapM new_StatusCheck (stored <$> entries) w) as [[l1|e] w1];
    [|done].
  rewrite IO_bind_run. cbn [mapM]. rewrite IO_bind_run.
  destruct (new_StatusCheck doc w1) as [[s|e] w2] eqn:Hnew;
    apply (f_equal fst) in Hnew; cbn [fst new_StatusCheck] in Hnew;
    rename Hnew into Hinit.
  - exfalso. revert Hinit.
    unfold StatusCheck.init, StatusCheck.needed. rewrite Hdoc.
    unfold construct.
    destruct (StatusCheck.defaulted _ _ "id" doc);
      destruct (StatusCheck.defaulted _ _ "timestamp" doc); done.
  - exists e. split; [done|]. by eapply construct_errors.
Qed.

End StatusLog.

Section StatusIdentifiers.
Context `{!Coercions}.

Lemma created_ids inputs w records w' :
  mapM create_status_check inputs w = (Ok records, w') →
  StatusCheck.id <$> records
    = uuids w <$> seq (ticks w) (length inputs).
Proof.
  revert w records. induction inputs as [|input inputs IH];
    intros w records.
  - by intros [= <- <-].
  - cbn [mapM]. rewrite IO_bind_run, create_status_check_run.
    rewrite IO_bind_run.
    destruct (mapM create_status_check inputs _) as [[k|e] w2] eqn:Hk;
      [|done].
    intros [= <- <-]. apply IH in Hk. cbn [length seq].
    rewrite !fmap_cons. f_equal. exact Hk.
Qed.

(** X21: The identifiers of the records created one after the other are the
    values [uuid.uuid4()] gave, in order; the records have pairwise
    distinct identifiers as soon as these values do not repeat. *)
Theorem created_records_have_distinct_ids inputs w records w' :
  NoDup (uuids w <$> seq (ticks w) (length inputs)) →
  mapM create_status_check inputs w = (Ok records, w') →
  StatusCheck.id <$> records = uuids w <$> seq (ticks w) (length inputs)
  ∧ NoDup (StatusCheck.id <$> records).
Proof.
  intros Hnodup Hrun. apply created_ids in Hrun. by rewrite Hrun.
Qed.

End StatusIdentifiers.

(** ** The API tester *)

Lemma Test_bind_run {A B} (m : Test A) (f : A → Test B) st :
  (m ≫= f) st =
    match m st with
    | (Ok a, st') => f a st'
    | (Raise e, st') => (Raise e, st')
    end.
Proof. reflexivity. Qed.

(** What one [run_test] does, case by case. *)
Lemma run_test_run name method endpoint expected_status params data st :
  run_test name method endpoint expected_status params data st =
    match call_of method (RadioAPITester.base_url st.1 +:+ "/" +:+ endpoint)
            params data with
    | None => (Ok (false, JDict ∅), (counted st.1 false, st.2))
    | Some c =>
        match server st.2 (length (calls st.2)) c with
        | inl e => (Ok (false, JDict ∅), (counted st.1 false, called c st.2))
        | inr response =>
            let success := status_code response =? expected_status in
            if status_code response =? 200 then
              match body_json response with
              | Ok body =>
                  (Ok (success, body), (counted st.1 success, called c st.2))
              | Raise e =>
                  (Ok (false, JDict ∅), (counted st.1 success, called c st.2))
              end
            else
              (Ok (success, JDict ∅), (counted st.1 success, called c st.2))
        end
    end.
Proof.
  destruct st as [[base run passed] [srv cs]].
  unfold run_test, call_of. rewrite !Test_bind_run. cbn [self_base_url fst snd].
  rewrite Test_bind_run. cbn [count_run fst snd RadioAPITester.base_url
    RadioAPITester.tests_run RadioAPITester.tests_passed].
  unfold test_try_except. rewrite Test_bind_run.
  unfold counted, called. cbn [RadioAPITester.base_url
    RadioAPITester.tests_run RadioAPITester.tests_passed server calls].
  destruct (String.eqb method "GET").
  { unfold requests_get, requests_call. cbn [fst snd server calls].
    destruct (srv (length cs) _) as [e|response];
      [by rewrite Z.add_0_r|].
    rewrite Test_bind_run.
    destruct (status_code response =? expected_status);
      cbn; rewrite ?Z.add_0_r;
      destruct (status_code response =? 200); cbn;
      try destruct (body_json response); reflexivity. }
  destruct (String.eqb method "POST").
  { unfold requests_post, requests_call. cbn [fst snd server calls].
    destruct (srv (length cs) _) as [e|response];
      [by rewrite Z.add_0_r|].
    rewrite Test_bind_run.
    destruct (status_code response =? expected_status);
      cbn; rewrite ?Z.add_0_r;
      destruct (status_code response =? 200); cbn;
      try destruct (body_json response); reflexivity. }
  cbn. by rewrite Z.add_0_r.
Qed.


(** X23: A test reports success only if the server answered its call with the
    expected status, and then the test was counted as passed.  The body
    it returns is the decoded body of a 200 response, and the empty
    object for any other status. *)
Theorem run_test_success name method endpoint expected_status params data st body :
  let out := run_test name method endpoint expected_status params data st in
  out.1 = Ok (true, body) →
  ∃ c response,
    calls out.2.2 = calls st.2 ++ [c]
    ∧ server st.2 (length (calls st.2)) c = inr response
    ∧ status_code response = expected_status
    ∧ RadioAPITester.tests_passed out.2.1
        = RadioAPITester.tests_passed st.1 + 1
    ∧ (status_code response = 200 → body_json response = Ok body)
    ∧ (status_code response ≠ 200 → body = JDict ∅).
Proof.
  intros out. subst out. rewrite run_test_run.
  destruct (call_of _ _ _ _) as [c|]; [|done].
  destruct (server st.2 _ c) as [e|response] eqn:Hserver; [done|].
  cbn zeta.
  destruct (Z.eqb_spec (status_code response) 200) as [H200|H200].
  - destruct (body_json response) as [v|e] eqn:Hbody; [|done].
    cbn [fst snd]. intros [= Hs ->]. exists c, response.
    apply Z.eqb_eq in Hs as Hs'. rewrite Hs. by split_and!.
  - cbn [fst snd]. intros [= Hs <-]. exists c, response.
    apply Z.eqb_eq in Hs as Hs'. rewrite Hs. by split_and!.
Qed.

(** X24: A test can be counted as passed and still report failure: when 200 is
    expected and the server answers 200 with a body that does not decode,
    the counter of passed tests goes up, and the test returns false with
    the empty object. *)
Theorem undecodable_body_counts_as_passed
    name method endpoint params data st c response e :
  call_of method (RadioAPITester.base_url st.1 +:+ "/" +:+ endpoint)
    params data = Some c →
  server st.2 (length (calls st.2)) c = inr response →
  status_code response = 200 →
  body_json response = Raise e →
  let out := run_test name method endpoint 200 params data st in
  out.1 = Ok (false, JDict ∅)
  ∧ RadioAPITester.tests_passed out.2.1 = RadioAPITester.tests_passed st.1 + 1
  ∧ RadioAPITester.tests_run out.2.1 = RadioAPITester.tests_run st.1 + 1.
Proof.
  intros Hc Hserver H200 Hbody out. subst out.
  rewrite run_test_run, Hc, Hserver. cbn zeta. rewrite H200, Hbody. done.
Qed.

(** X25: With a method other than GET and POST a test makes no call at all: it
    is counted as run, not as passed, and reports failure. *)
Theorem unsupported_method_makes_no_call
    name method endpoint expected_status params data st :
  method ≠ "GET" → method ≠ "POST" →
  run_test name method endpoint expected_status params data st
    = (Ok (false, JDict ∅),
       ({| RadioAPITester.base_url := RadioAPITester.base_url st.1;
           RadioAPITester.tests_run := RadioAPITester.tests_run st.1 + 1;
           RadioAPITester.tests_passed := RadioAPITester.tests_passed st.1 |},
        st.2)).
Proof.
  intros Hget Hpost. rewrite run_test_run. unfold call_of.
  destruct (String.eqb_spec method "GET"); [done|].
  destruct (String.eqb_spec method "POST"); [done|].
  unfold counted. by rewrite Z.add_0_r.
Qed.

(** ** A whole run of the tester *)

Lemma answered_200_called c s n :
  (n < length (calls s))%nat →
  answered_200 (called c s) n = answered_200 s n.
Proof.
  intros Hn. unfold answered_200, called. cbn [calls server].
  by rewrite lookup_app_l.
Qed.

Lemma hits_called c s n :
  (n ≤ length (calls s))%nat → hits (called c s) n = hits s n.
Proof.
  induction n as [|n IH]; intros Hn; [done|].
  cbn [hits]. rewrite IH by lia. by rewrite answered_200_called by lia.
Qed.

Lemma hits_bounds s n : 0 ≤ hits s n ≤ Z.of_nat n.
Proof.
  induction n as [|n IH]; cbn [hits]; [lia|].
  destruct (answered_200 s n); lia.
Qed.

Lemma hits_all s n :
  hits s n = Z.of_nat n ↔ ∀ i, (i < n)%nat → answered_200 s i = true.
Proof.
  induction n as [|n IH]; cbn [hits].
  - split; [intros _ i; lia|done].
  - pose proof (hits_bounds s n) as Hb. split.
    + intros Hn i Hi. destruct (answered_200 s n) eqn:Hlast; [|lia].
      destruct (decide (i = n)) as [->|]; [done|].
      apply IH; lia.
    + intros Hall. rewrite (Hall n) by lia.
      rewrite (proj2 IH) by (intros i Hi; apply Hall; lia). lia.
Qed.

(** A test that expects 200 keeps the counters in step with the log. *)
Lemma run_test_ledger name method endpoint params data st n c :
  call_of method (RadioAPITester.base_url st.1 +:+ "/" +:+ endpoint)
    params data = Some c →
  ledger n st →
  ∃ success body st',
    run_test name method endpoint 200 params data st
      = (Ok (success, body), st')
    ∧ ledger (S n) st'
    ∧ RadioAPITester.base_url st'.1 = RadioAPITester.base_url st.1
    ∧ (success = true → answered_200 st'.2 n = true).
Proof.
  intros Hc (Hlen & Hrun & Hpassed). rewrite run_test_run, Hc.
  assert (∀ b, answered_200 (called c st.2) n = b →
               ledger (S n) (counted st.1 b, called c st.2)) as Hledger.
  { intros b Hb. unfold ledger. cbn [fst snd hits].
    rewrite hits_called, Hb by lia. unfold called, counted. cbn.
    rewrite length_app, Hlen, Hrun, Hpassed. cbn. split_and!; lia. }
  assert (∀ o, server st.2 (length (calls st.2)) c = o →
               answered_200 (called c st.2) n
                 = match o with
                   | inr response => status_code response =? 200
                   | inl _ => false
                   end) as Hans.
  { intros o <-. unfold answered_200, called. cbn [calls server].
    rewrite <-Hlen. by rewrite lookup_app_r, Nat.sub_diag by lia. }
  destruct (server st.2 (length (calls st.2)) c) as [e|response] eqn:Hserver.
  - specialize (Hans _ eq_refl). eexists _, _, _. split; [done|].
    split; [by apply Hledger|]. by split.
  - specialize (Hans _ eq_refl). cbn zeta.
    destruct (status_code response =? 200) eqn:H200.
    + destruct (body_json response) as [body|e];
        eexists _, _, _; (split; [done|]);
        (split; [by apply Hledger|]); by split.
    + eexists _, _, _. split; [done|].
      split; [by apply Hledger|]. by split.
Qed.

(** The next [run_test] of the goal keeps the ledger [L]. *)
Ltac test_step L success body st' L' :=
  rewrite Test_bind_run;
  match goal with
  | |- context [run_test ?nm ?m ?ep 200 ?p ?d ?st] =>
      let Hb := fresh "Hbase" in
      destruct (run_test_ledger nm m ep p d st _ _ eq_refl L)
        as (success & body & st' & -> & L' & Hb & _)
  end.

Lemma ledger_exit_code n st :
  ledger n st →
  (RadioAPITester.tests_passed st.1 =? RadioAPITester.tests_run st.1) = true
  ↔ ∀ i, (i < length (calls st.2))%nat → answered_200 st.2 i = true.
Proof.
  intros (Hlen & Hrun & Hpassed).
  rewrite Z.eqb_eq, Hpassed, Hrun, Hlen. apply hits_all.
Qed.


(** ** The further properties on the sample inputs *)

Lemma forwarder_returns_decoded_body_witness :
  (make_radio_browser_request "/json/tags" None
     (answering (ok_response (JList [JInt 1])))).1 = Ok (JList [JInt 1]).
Proof.
  apply (forwarder_returns_decoded_body "/json/tags" None
           (answering (ok_response (JList [JInt 1])))
           (outbound "de1.api.radio-browser.info" "/json/tags" None)).
  - vm_compute. reflexivity.
  - eexists. split; [reflexivity|]. split; reflexivity.
Defined.

Lemma forwarder_fails_with_408_or_500_witness :
  HTTPException 500 "Radio API error: 404: Radio API error: 404"
    = HTTPException 408 "Radio API timeout"
  ∨ ∃ detail,
      HTTPException 500 "Radio API error: 404: Radio API error: 404"
        = HTTPException 500 ("Radio API error: " +:+ detail).
Proof.
  apply (forwarder_fails_with_408_or_500 "/json/tags" None answering_404).
  vm_compute. reflexivity.
Defined.

Lemma transport_failure_is_reported_as_500_witness :
  (make_radio_browser_request "/json/tags" None refusing).1
    = Raise (HTTPException 500
               ("Radio API error: "
                +:+ str (Error "ClientConnectorError" "Connection refused"))).
Proof.
  apply (transport_failure_is_reported_as_500 "/json/tags" None refusing
           (outbound "de1.api.radio-browser.info" "/json/tags" None)).
  - vm_compute. reflexivity.
  - left. reflexivity.
  - intros msg. discriminate.
Defined.

Lemma search_sends_the_given_filters_witness :
  ∃ host p,
    host ∈ RADIO_BROWSER_SERVERS
    ∧ url (outbound "de1.api.radio-browser.info" "/json/stations/search"
             (Some {[ "limit" := PInt 7; "offset" := PInt 0;
                      "hidebroken" := PStr "true";
                      "order" := PStr "clickcount";
                      "reverse" := PStr "true";
                      "name" := PStr "jazz" ]}))
        = ("https://" +:+ host) +:+ "/json/stations/search"
    ∧ params (outbound "de1.api.radio-browser.info" "/json/stations/search"
                (Some {[ "limit" := PInt 7; "offset" := PInt 0;
                         "hidebroken" := PStr "true";
                         "order" := PStr "clickcount";
                         "reverse" := PStr "true";
                         "name" := PStr "jazz" ]})) = Some p
    ∧ carries p "name" (Some "jazz")
    ∧ carries p "country" (Some EmptyString)
    ∧ carries p "tag" None
    ∧ carries p "language" None
    ∧ p !! "hidebroken" = Some (PStr "true")
    ∧ p !! "order" = Some (PStr "clickcount")
    ∧ p !! "reverse" = Some (PStr "true")
    ∧ ∀ k, k ∉ [ "limit"; "offset"; "hidebroken"; "order"; "reverse";
                 "name"; "country"; "tag"; "language" ] →
           p !! k = None.
Proof.
  apply (@search_sends_the_given_filters literal_only
           (Some "jazz") (Some EmptyString) None None (Some 7) None
           two_stations).
  vm_compute. reflexivity.
Defined.

Lemma upstream_sees_bounded_limit_witness :
  ∃ p l, params (outbound "de1.api.radio-browser.info" "/json/tags"
                   (Some {[ "limit" := PInt 50;
                            "order" := PStr "stationcount";
                            "reverse" := PStr "true" ]})) = Some p
         ∧ p !! "limit" = Some (PInt l) ∧ 1 ≤ l ≤ 100.
Proof.
  apply (proj2 (proj2 (@upstream_sees_bounded_limit literal_only
                         None None None None None None two_stations _))).
  vm_compute. reflexivity.
Defined.

Lemma stations_are_reshaped_in_order_witness :
  (@GET_radio_popular literal_only (Some 10) two_stations).1
    = Handled (Ok [station "u1" "One"; station "u2" "Two"])
  ↔ Forall2 (λ item st, @RadioStation.of_json literal_only item = Ok st)
      [station_json "u1" "One"; station_json "u2" "Two"]
      [station "u1" "One"; station "u2" "Two"].
Proof.
  apply (proj2 (@stations_are_reshaped_in_order literal_only
                  None None None None (Some 10) None two_stations
                  (outbound "de1.api.radio-browser.info"
                     "/json/stations/search"
                     (Some {[ "limit" := PInt 10;
                              "hidebroken" := PStr "true";
                              "order" := PStr "clickcount";
                              "reverse" := PStr "true" ]}))
                  [station_json "u1" "One"; station_json "u2" "Two"]
                  ltac:(vm_compute; reflexivity))).
  vm_compute. reflexivity.
Defined.

Lemma one_invalid_station_fails_the_request_witness :
  status_code_of
    (@GET_radio_popular literal_only (Some 10)
       (answering (ok_response (JList [station_json "u1" "One"; JInt 5])))).1
    = 500.
Proof.
  apply (proj2 (@one_invalid_station_fails_the_request literal_only
                  None None None None (Some 10) None
                  (answering
                     (ok_response (JList [station_json "u1" "One"; JInt 5])))
                  (outbound "de1.api.radio-browser.info"
                     "/json/stations/search"
                     (Some {[ "limit" := PInt 10;
                              "hidebroken" := PStr "true";
                              "order" := PStr "clickcount";
                              "reverse" := PStr "true" ]}))
                  [station_json "u1" "One"; JInt 5]
                  ltac:(vm_compute; reflexivity)
                  ltac:(exists (JInt 5); split;
                          [apply list_elem_of_further, list_elem_of_here
                          |eexists; vm_compute; reflexivity]))).
  vm_compute. reflexivity.
Defined.

Lemma unknown_station_keys_are_dropped_witness :
  @RadioStation.init literal_only
    (<["iso_3166_2" := JNull]>
       {[ "stationuuid" := JStr "u1"; "name" := JStr "One";
          "url" := JStr "http://stream.example/live" ]})
  = @RadioStation.init literal_only
      {[ "stationuuid" := JStr "u1"; "name" := JStr "One";
         "url" := JStr "http://stream.example/live" ]}.
Proof.
  apply (@unknown_station_keys_are_dropped literal_only).
  apply (bool_decide_unpack _). vm_compute. exact I.
Defined.

Lemma station_keeps_its_required_strings_witness :
  ∃ d, station_json "u1" "One" = JDict d
       ∧ d !! "stationuuid"
           = Some (JStr (RadioStation.stationuuid (station "u1" "One")))
       ∧ d !! "name" = Some (JStr (RadioStation.name (station "u1" "One")))
       ∧ d !! "url" = Some (JStr (RadioStation.url (station "u1" "One"))).
Proof.
  apply (@station_keeps_its_required_strings literal_only).
  vm_compute. reflexivity.
Defined.

Lemma countries_are_the_upstream_ones_with_stations_witness :
  (@GET_radio_countries literal_only
     (answering (ok_response
        (JList (Country_json <$>
                  [ Country.mk "Austria" "AT" 3; Country.mk "Nowhere" "XX" 0 ]))))).1
    = Handled (Ok (filter (λ c, 0 < Country.stationcount c)
                     [ Country.mk "Austria" "AT" 3; Country.mk "Nowhere" "XX" 0 ])).
Proof.
  apply (@countries_are_the_upstream_ones_with_stations literal_only _
           (outbound "de1.api.radio-browser.info" "/json/countries" None)).
  - vm_compute. reflexivity.
  - reflexivity.
Defined.

Lemma genres_are_not_filtered_witness :
  length [ Genre.mk "jazz" 7; Genre.mk "silence" 0 ]
    = length [ JDict {[ "name" := JStr "jazz"; "stationcount" := JInt 7 ]};
               JDict {[ "name" := JStr "silence"; "stationcount" := JInt 0 ]} ]
  ∧ Forall2
      (λ item g,
         ∃ d v, item = JDict d
                ∧ d !! "name" = Some (JStr (Genre.name g))
                ∧ d !! "stationcount" = Some v
                ∧ @validate_int literal_only v = Some (Genre.stationcount g))
      [ JDict {[ "name" := JStr "jazz"; "stationcount" := JInt 7 ]};
        JDict {[ "name" := JStr "silence"; "stationcount" := JInt 0 ]} ]
      [ Genre.mk "jazz" 7; Genre.mk "silence" 0 ].
Proof.
  apply (@genres_are_not_filtered literal_only None
           (answering (ok_response
              (JList [ JDict {[ "name" := JStr "jazz"; "stationcount" := JInt 7 ]};
                       JDict {[ "name" := JStr "silence";
                                "stationcount" := JInt 0 ]} ])))
           (outbound "de1.api.radio-browser.info" "/json/tags"
              (Some {[ "limit" := PInt 50; "order" := PStr "stationcount";
                       "reverse" := PStr "true" ]}))).
  - vm_compute. reflexivity.
  - reflexivity.
  - vm_compute. reflexivity.
Defined.

Lemma empty_answers_are_404_witness :
  (@GET_radio_station literal_only "u9" (answering (ok_response JNull))).1
    = Handled (Raise (HTTPException 404 "Station not found")).
Proof.
  apply (@empty_answers_are_404 literal_only "u9"
           (answering (ok_response JNull)) JNull).
  - vm_compute. reflexivity.
  - left. reflexivity.
Defined.

Lemma new_record_is_listed_below_the_cap_witness :
  ∃ status_obj,
    (@create_status_check literal_only (StatusCheckCreate.mk "probe")
       (with_documents [])).1 = Ok status_obj
    ∧ ((length ([] : list (N * StatusCheck.t)) < 1000)%nat →
       ∃ l, (@get_status_checks literal_only
               (@create_status_check literal_only
                  (StatusCheckCreate.mk "probe") (with_documents [])).2).1
              = Ok l
            ∧ last l = Some (read_back status_obj))
    ∧ ((1000 ≤ length ([] : list (N * StatusCheck.t)))%nat →
       (@get_status_checks literal_only
          (@create_status_check literal_only
             (StatusCheckCreate.mk "probe") (with_documents [])).2).1
         = (@get_status_checks literal_only (with_documents [])).1).
Proof.
  apply (@new_record_is_listed_below_the_cap literal_only
           (StatusCheckCreate.mk "probe") (with_documents []) []).
  reflexivity.
Defined.

Lemma listing_ignores_what_follows_the_first_1000_witness :
  (@get_status_checks literal_only
     (with_documents
        ((stored <$> replicate 1000 (0%N, probe_record)) ++ [∅]))).1
    = Ok (read_back <$> take 1000 (replicate 1000 (0%N, probe_record)).*2).
Proof.
  apply (@listing_ignores_what_follows_the_first_1000 literal_only
           (with_documents
              ((stored <$> replicate 1000 (0%N, probe_record)) ++ [∅]))
           (replicate 1000 (0%N, probe_record)) [∅]).
  - reflexivity.
  - rewrite length_replicate. apply Nat.le_refl.
Defined.

Lemma one_malformed_document_fails_the_listing_witness :
  ∃ e, (@get_status_checks literal_only
          (with_documents ((stored <$> [(0%N, probe_record)]) ++ [∅]))).1
         = Raise e
       ∧ is_error e.
Proof.
  apply (@one_malformed_document_fails_the_listing literal_only
           (with_documents ((stored <$> [(0%N, probe_record)]) ++ [∅]))
           [(0%N, probe_record)] ∅ []).
  - reflexivity.
  - simpl. lia.
  - reflexivity.
Defined.

Lemma created_records_have_distinct_ids_witness :
  StatusCheck.id <$>
    [ {| StatusCheck.id := "check-a"; StatusCheck.client_name := "probe";
         StatusCheck.timestamp := 1700000000123456 |};
      {| StatusCheck.id := "check-b"; StatusCheck.client_name := "monitor";
         StatusCheck.timestamp := 1700000000123456 |} ]
    = uuids two_identifiers <$> seq (ticks two_identifiers) 2
  ∧ NoDup (StatusCheck.id <$>
             [ {| StatusCheck.id := "check-a"; StatusCheck.client_name := "probe";
                  StatusCheck.timestamp := 1700000000123456 |};
               {| StatusCheck.id := "check-b"; StatusCheck.client_name := "monitor";
                  StatusCheck.timestamp := 1700000000123456 |} ]).
Proof.
  apply (@created_records_have_distinct_ids literal_only
           [StatusCheckCreate.mk "probe"; StatusCheckCreate.mk "monitor"]
           two_identifiers
           [ {| StatusCheck.id := "check-a"; StatusCheck.client_name := "probe";
                StatusCheck.timestamp := 1700000000123456 |};
             {| StatusCheck.id := "check-b"; StatusCheck.client_name := "monitor";
                StatusCheck.timestamp := 1700000000123456 |} ]
           (mapM (@create_status_check literal_only)
              [StatusCheckCreate.mk "probe"; StatusCheckCreate.mk "monitor"]
              two_identifiers).2).
  - apply (bool_decide_unpack _). vm_compute. exact I.
  - vm_compute. reflexivity.
Defined.

Lemma run_test_success_witness :
  ∃ c response,
    calls (run_test "Click" "POST" "api/radio/click/u1" 404 None None
             (default_tester,
              always {| status_code := 404; body_json := Ok JNull |})).2.2
      = calls (always {| status_code := 404; body_json := Ok JNull |}) ++ [c]
    ∧ server (always {| status_code := 404; body_json := Ok JNull |})
        (length (calls (always {| status_code := 404; body_json := Ok JNull |})))
        c = inr response
    ∧ status_code response = 404
    ∧ RadioAPITester.tests_passed
        (run_test "Click" "POST" "api/radio/click/u1" 404 None None
           (default_tester,
            always {| status_code := 404; body_json := Ok JNull |})).2.1
        = RadioAPITester.tests_passed default_tester + 1
    ∧ (status_code response = 200 → body_json response = Ok (JDict ∅))
    ∧ (status_code response ≠ 200 → JDict ∅ = JDict ∅).
Proof.
  apply (run_test_success "Click" "POST" "api/radio/click/u1" 404 None None
           (default_tester,
            always {| status_code := 404; body_json := Ok JNull |})
           (JDict ∅)).
  vm_compute. reflexivity.
Defined.

Lemma undecodable_body_counts_as_passed_witness :
  (run_test "Root" "GET" "api/" 200 None None
     (default_tester,
      always {| status_code := 200;
                body_json := Raise (Error "JSONDecodeError" "Expecting value") |})).1
    = Ok (false, JDict ∅)
  ∧ RadioAPITester.tests_passed
      (run_test "Root" "GET" "api/" 200 None None
         (default_tester,
          always {| status_code := 200;
                    body_json := Raise (Error "JSONDecodeError" "Expecting value") |})).2.1
      = RadioAPITester.tests_passed default_tester + 1
  ∧ RadioAPITester.tests_run
      (run_test "Root" "GET" "api/" 200 None None
         (default_tester,
          always {| status_code := 200;
                    body_json := Raise (Error "JSONDecodeError" "Expecting value") |})).2.1
      = RadioAPITester.tests_run default_tester + 1.
Proof.
  eapply (undecodable_body_counts_as_passed "Root" "GET" "api/" None None
            (default_tester,
             always {| status_code := 200;
                       body_json := Raise (Error "JSONDecodeError" "Expecting value") |})).
  - reflexivity.
  - reflexivity.
  - reflexivity.
  - reflexivity.
Defined.

Lemma unsupported_method_makes_no_call_witness :
  run_test "Delete" "DELETE" "api/status" 200 None None
    (default_tester, always {| status_code := 200; body_json := Ok JNull |})
  = (Ok (false, JDict ∅),
     ({| RadioAPITester.base_url := RadioAPITester.base_url default_tester;
         RadioAPITester.tests_run := RadioAPITester.tests_run default_tester + 1;
         RadioAPITester.tests_passed := RadioAPITester.tests_passed default_tester |},
      always {| status_code := 200; body_json := Ok JNull |})).
Proof.
  apply (unsupported_method_makes_no_call "Delete" "DELETE" "api/status" 200
           None None
           (default_tester,
            always {| status_code := 200; body_json := Ok JNull |})).
  - discriminate.
  - discriminate.
Defined.


Example main_makes_nine_calls :
  length (calls (@main plain_repr
                   (default_tester,
                    always {| status_code := 200;
                              body_json := Ok (JList [station_json "u1" "One"]) |})).2.2)
    = 9%nat.
Proof. vm_compute. reflexivity. Qed.

Example main_fails_on_503 :
  (@main plain_repr
     (default_tester,
      always {| status_code := 503; body_json := Ok JNull |})).1 = Ok 1.
Proof. vm_compute. reflexivity. Qed.
